(** * Resource game: a shallow embedding of [resource_game.py]

    The program keeps two dictionaries in memory, the resource stockpiles
    and the villager allocation.  A background thread adds, every tick, the
    yield of each category to its stockpile; the foreground thread reads
    one command per line and reassigns villagers.

    Modelling choices, all taken from the source:
    - a Python [dict] keyed by strings is a [gmap string _]; a subscript on
      a missing key raises [KeyError];
    - villager counts are Python [int]s, hence unbounded [Z];
    - stockpiles are Python [float]s, hence IEEE binary64 numbers: Rocq's
      primitive [float], whose operations are specified by [SpecFloat].
      An integer entry read from a JSON file (such as the default [0]) is
      represented by the float of the same value;
    - [log_message] and the two [save_*] functions never raise; their calls
      are recorded, in order, in a trace of effects;
    - exceptions are values: a computation returns [Ok] or [Raised], and
      the store it has mutated so far is kept in both cases;
    - strings are sequences of ASCII characters; [str.split], [str.lower]
      and [int] are modelled on those (no Unicode blanks or digits, no
      limit on the number of digits of an integer);
    - a command and a tick each run to their end before the next event:
      the interpreter is the only writer of the allocation and the
      accumulator the only writer of the ledger;
    - [rotate_log_file], the timestamps of the log and the sleep between
      two ticks touch neither record and are left out of the store;
    - the files themselves (the two records, the log and its backup) are
      modelled apart, in module [Disk], as a map from paths to texts, with
      the JSON library and the paths that cannot be opened as parameters
      of the host. *)

From Stdlib Require Import ZArith String Ascii List Floats Lia DecimalString.
From stdpp Require Import gmap strings.

Set Warnings "-inexact-float,-register-all".

Local Open Scope string_scope.
Local Open Scope Z_scope.

(** ** Python strings *)

Module PyStr.

(** [str.isspace] on ASCII: TAB..CR, FS..US and the blank. *)
Definition is_space (c : ascii) : bool :=
  let n := Z.of_nat (nat_of_ascii c) in
  ((9 <=? n) && (n <=? 13)) || ((28 <=? n) && (n <=? 32)).

Fixpoint rev_append (s acc : string) : string :=
  match s with
  | EmptyString => acc
  | String c s' => rev_append s' (String c acc)
  end.

Definition flush (cur : string) (rest : list string) : list string :=
  match cur with
  | EmptyString => rest
  | _ => rev_append cur EmptyString :: rest
  end.

(** [cur] is the token being read, last character first. *)
Fixpoint split_from (cur : string) (s : string) : list string :=
  match s with
  | EmptyString => flush cur []
  | String c s' =>
      if is_space c then flush cur (split_from EmptyString s')
      else split_from (String c cur) s'
  end.

(** [s.split()] *)
Definition split (s : string) : list string := split_from EmptyString s.

Fixpoint lstrip (s : string) : string :=
  match s with
  | String c s' => if is_space c then lstrip s' else s
  | EmptyString => EmptyString
  end.

(** [s.strip()] *)
Definition strip (s : string) : string :=
  rev_append (lstrip (rev_append (lstrip s) EmptyString)) EmptyString.

Definition lower_char (c : ascii) : ascii :=
  let n := nat_of_ascii c in
  if ((65 <=? n) && (n <=? 90))%nat then ascii_of_nat (n + 32) else c.

(** [s.lower()] *)
Fixpoint lower (s : string) : string :=
  match s with
  | EmptyString => EmptyString
  | String c s' => String (lower_char c) (lower s')
  end.

Definition digit_of (c : ascii) : option Z :=
  let n := Z.of_nat (nat_of_ascii c) in
  if (48 <=? n) && (n <=? 57) then Some (n - 48) else None.

(** Decimal digits, with single underscores allowed between two digits. *)
Fixpoint int_digits (s : string) (acc : Z) (after_digit : bool) : option Z :=
  match s with
  | EmptyString => if after_digit then Some acc else None
  | String c s' =>
      if Ascii.eqb c "_"%char
      then (if after_digit then int_digits s' acc false else None)
      else match digit_of c with
           | Some d => int_digits s' (10 * acc + d) true
           | None => None
           end
  end.

(** [int(s)] for a token [s]; [None] stands for [ValueError]. *)
Definition py_int (s : string) : option Z :=
  match s with
  | String "-"%char s' => Z.opp <$> int_digits s' 0 false
  | String "+"%char s' => int_digits s' 0 false
  | _ => int_digits s 0 false
  end.

(** [str(n)] for an [int]. *)
Definition str (n : Z) : string := NilZero.string_of_int (Z.to_int n).

(** [sep.join(l)] *)
Fixpoint join (sep : string) (l : list string) : string :=
  match l with
  | [] => EmptyString
  | [x] => x
  | x :: l' => x ++ sep ++ join sep l'
  end.

End PyStr.

(** ** Constants *)

Definition TOTAL_VILLAGERS : Z := 100.

Definition RESOURCE_TYPES : list string := ["gold"; "stone"; "wood"; "food"].

Definition RESOURCE_PERCENTAGES : gmap string float :=
  list_to_map [("gold", 0.00004%float); ("stone", 0.90%float);
               ("wood", 0.001%float); ("food", 0.0001%float)].

(** ** Exceptions, messages and effects *)

Inductive exn : Type :=
| IndexError
| KeyError (key : string)
| OverflowError
| OSError (text : string)
| JSONDecodeError (text : string)
| UnicodeDecodeError (text : string)
| RecursionError (text : string)
| SystemExit (code : Z).

(** What [str(e)] shows for the exceptions above. *)
Definition exn_text (e : exn) : string :=
  match e with
  | IndexError => "list index out of range"
  | KeyError k => "'" ++ k ++ "'"
  | OverflowError => "int too large to convert to float"
  | OSError t => t
  | JSONDecodeError t => t
  | UnicodeDecodeError t => t
  | RecursionError t => t
  | SystemExit c => PyStr.str c
  end.

(** [SystemExit] is not an [Exception]: [except Exception] lets it through. *)
Definition is_Exception (e : exn) : bool :=
  match e with SystemExit _ => false | _ => true end.

(** The argument of [log_message].  Messages that print a float or a JSON
    dump keep their arguments instead of a rendering. *)
Inductive message : Type :=
| Text (s : string)
| Updated (resource_type : string) (resource_gain : float) (num_villagers : Z)
| CurrentResources (resources : gmap string float)
| VillagerAllocation (villagers : gmap string Z).

Inductive effect : Type :=
| Log (m : message)
| SaveResources (resources : gmap string float)
| SaveVillagers (villagers : gmap string Z).

(** ** The shared store and the monad of the two threads *)

Record store : Type := Store {
  resources : gmap string float;
  villagers : gmap string Z;
  trace : list effect
}.

Inductive result (A : Type) : Type :=
| Ok (a : A)
| Raised (e : exn).
Arguments Ok {A} a.
Arguments Raised {A} e.

Definition M (A : Type) : Type := store → result A * store.

#[global] Instance M_ret : MRet M := λ A a s, (Ok a, s).
#[global] Instance M_bind : MBind M := λ A B f m s,
  match m s with
  | (Ok a, s') => f a s'
  | (Raised e, s') => (Raised e, s')
  end.

Definition raise {A : Type} (e : exn) : M A := λ s, (Raised e, s).

Definition emit (e : effect) : M unit := λ s,
  (Ok tt, Store (resources s) (villagers s) (trace s ++ [e])).

Definition log_message (m : message) : M unit := emit (Log m).

Definition get_villagers : M (gmap string Z) := λ s, (Ok (villagers s), s).
Definition get_resources : M (gmap string float) := λ s, (Ok (resources s), s).

Definition set_villagers (v : gmap string Z) : M unit := λ s,
  (Ok tt, Store (resources s) v (trace s)).
Definition set_resources (r : gmap string float) : M unit := λ s,
  (Ok tt, Store r (villagers s) (trace s)).

(** A lookup that raises when it finds nothing. *)
Definition or_raise {A : Type} (e : exn) (o : option A) : M A :=
  match o with
  | Some a => mret a
  | None => raise e
  end.

(** [d[k]] *)
Definition subscript {V : Type} (d : gmap string V) (k : string) : M V :=
  or_raise (KeyError k) (d !! k).

(** [l[i]] *)
Definition index (l : list string) (i : nat) : M string :=
  or_raise IndexError (l !! i).

Definition save_villagers : M unit :=
  v ← get_villagers; emit (SaveVillagers v).
Definition save_resources : M unit :=
  r ← get_resources; emit (SaveResources r).

(** [sum(d.values())] *)
Definition sum_values (d : gmap string Z) : Z :=
  map_fold (λ _ v acc, acc + v) 0 d.

(** ** Accumulator *)

(** [float(n)] as Python converts an [int] operand of a float operation:
    rounded to nearest even; [None] stands for the [OverflowError] raised
    beyond the largest float. *)
Definition float_of_int (n : Z) : option float :=
  match binary_normalize prec emax n 0 false with
  | S754_infinity _ => None
  | sf => Some (SF2Prim sf)
  end.

(** The gain added for one category: the product, or zero when negative. *)
Definition clamp (resource_gain : float) : float :=
  if (resource_gain <? 0)%float then 0%float else resource_gain.

(** One iteration of the loop of [update_resources]. *)
Definition update_resource (resource_type : string) : M unit :=
  v ← get_villagers;
  num_villagers ← subscript v resource_type;
  rate ← subscript RESOURCE_PERCENTAGES resource_type;
  fv ← or_raise OverflowError (float_of_int num_villagers);
  let resource_gain := clamp (fv * rate)%float in
  r ← get_resources;
  old ← subscript r resource_type;
  set_resources (<[resource_type := (old + resource_gain)%float]> r);;
  log_message (Updated resource_type resource_gain num_villagers).

Fixpoint for_each (f : string → M unit) (l : list string) : M unit :=
  match l with
  | [] => mret tt
  | x :: l' => f x;; for_each f l'
  end.

Definition update_resources : M unit := for_each update_resource RESOURCE_TYPES.

(** One turn of [game_loop]: update, then save. *)
Definition game_tick : M unit := update_resources;; save_resources.

(** ** Command interpreter *)

Definition usage_message : string :=
  "Invalid command format. Use: get <resource> with <number> villagers/villager".
Definition invalid_number_message : string :=
  "Invalid number of villagers.  Must be an integer.".
Definition invalid_resource_message (resource_type : string) : string :=
  "Invalid resource type: " ++ resource_type ++ ".  Must be one of "
    ++ PyStr.join ", " RESOURCE_TYPES ++ ".".
Definition too_many_message (current_total_villagers : Z) : string :=
  "Too many villagers. You have " ++ PyStr.str current_total_villagers
    ++ " villagers assigned. You can assign a maximum of "
    ++ PyStr.str TOTAL_VILLAGERS ++ ".".
Definition set_message (num_villagers : Z) (resource_type : string) : string :=
  "Set " ++ PyStr.str num_villagers ++ " villagers to " ++ resource_type ++ ".".
Definition unknown_message (action : string) : string :=
  "Unknown command: " ++ action ++ ". Type 'help' for available commands.".
Definition help_messages : list string :=
  ["Available commands:";
   "  get <resource> with <number> villagers/villager - Assign villagers to a resource (e.g., get gold with 10 villagers)";
   "  status - Display current resource levels and villager allocation";
   "  help - Display this help message";
   "  exit - Exit the game"].

Definition handle_get (parts : list string) : M unit :=
  if bool_decide (length parts < 3)%nat then log_message (Text usage_message)
  else
    p1 ← index parts 1;
    let resource_type := PyStr.lower p1 in
    p3 ← index parts 3;
    match PyStr.py_int p3 with
    | None => log_message (Text invalid_number_message)
    | Some num_villagers =>
        if bool_decide (resource_type ∈ RESOURCE_TYPES) then
          v ← get_villagers;
          let current_total_villagers := sum_values v in
          old ← subscript v resource_type;
          if bool_decide (current_total_villagers - old + num_villagers > TOTAL_VILLAGERS)
          then log_message (Text (too_many_message current_total_villagers))
          else
            set_villagers (<[resource_type := num_villagers]> v);;
            save_villagers;;
            log_message (Text (set_message num_villagers resource_type))
        else log_message (Text (invalid_resource_message resource_type))
    end.

Definition handle_status : M unit :=
  v ← get_villagers;
  let total_gathering_villagers := sum_values v in
  r ← get_resources;
  log_message (CurrentResources r);;
  log_message (VillagerAllocation v);;
  log_message (Text ("Total Gathering Villagers: " ++ PyStr.str total_gathering_villagers)).

Definition handle_help : M unit :=
  for_each (λ line, log_message (Text line)) help_messages.

Definition handle_exit : M unit :=
  log_message (Text "Exiting game.");; raise (SystemExit 0).

(** [handle_command] after [parts = command.split()]. *)
Definition handle_parts (parts : list string) : M unit :=
  match parts with
  | [] => mret tt
  | p0 :: _ =>
      let action := PyStr.lower p0 in
      if bool_decide (action = "get") then handle_get parts
      else if bool_decide (action = "status") then handle_status
      else if bool_decide (action = "help") then handle_help
      else if bool_decide (action = "exit") then handle_exit
      else log_message (Text (unknown_message action))
  end.

Definition handle_command (command : string) : M unit :=
  handle_parts (PyStr.split command).

(** ** The process: one input loop, one ticking thread *)

Inductive event : Type :=
| Command (line : string)      (* a line read by [input] *)
| Tick                         (* the game thread wakes up *)
| Interrupt.                   (* [KeyboardInterrupt] in the input loop *)

Record process : Type := Process {
  mem : store;
  alive : bool;          (* the process has not exited *)
  ticking : bool         (* the game thread has not died *)
}.

Definition with_trace (s : store) (l : list effect) : store :=
  Store (resources s) (villagers s) (trace s ++ l).

(** What [main] does with the outcome of one [handle_command]. *)
Definition after_command (p : process) (r : result unit * store) : process :=
  match r with
  | (Ok _, s) => Process s true (ticking p)
  | (Raised e, s) =>
      if is_Exception e then
        Process (with_trace s
                   [Log (Text ("An unexpected error occurred: " ++ exn_text e));
                    Log (Text "Game exited due to error.")])
                false (ticking p)
      else Process s false (ticking p)
  end.

Definition step (p : process) (ev : event) : process :=
  if negb (alive p) then p
  else match ev with
       | Command line => after_command p (handle_command (PyStr.strip line) (mem p))
       | Tick =>
           if ticking p then
             match game_tick (mem p) with
             | (Ok _, s) => Process s true true
             | (Raised _, s) => Process s true false
             end
           else p
       | Interrupt =>
           Process (with_trace (mem p)
                      [Log (Text "Exiting game.  Cleaning up...");
                       Log (Text "Game exited.")])
                   false (ticking p)
       end.

Definition run (p : process) (evs : list event) : process := fold_left step evs p.

Definition default_villagers : gmap string Z :=
  list_to_map [("gold", 0); ("stone", 0); ("wood", 0); ("food", 0)].
Definition default_resources : gmap string float :=
  list_to_map [("gold", 0%float); ("stone", 0%float); ("wood", 0%float); ("food", 0%float)].

(** The state [main] starts from when both files hold the defaults. *)
Definition initial_store : store :=
  Store default_resources default_villagers
        [Log (Text "Welcome to the Resource Management Game!");
         Log (Text "Type 'help' to see available commands.")].

Definition initial : process := Process initial_store true true.

(** The token a [get] command reads its count from, as an integer. *)
Definition count_token (parts : list string) : option Z :=
  match parts with
  | _ :: _ :: _ :: n :: _ => PyStr.py_int n
  | _ => None
  end.

(** The event is not a command whose count token is a negative integer. *)
Definition nonneg_count (ev : event) : bool :=
  match ev with
  | Command line =>
      match count_token (PyStr.split (PyStr.strip line)) with
      | Some k => 0 <=? k
      | None => true
      end
  | _ => true
  end.

(** The store after [n] wake-ups of the game thread and no command. *)
Definition after_ticks (n : nat) (s : store) : store :=
  mem (run (Process s true true) (repeat Tick n)).

(** The stockpile of a category after its iteration of the accumulator
    loop, when that iteration raises nothing. *)
Definition ticked_value (s : store) (resource_type : string) : option float :=
  num_villagers ← villagers s !! resource_type;
  rate ← RESOURCE_PERCENTAGES !! resource_type;
  fv ← float_of_int num_villagers;
  old ← resources s !! resource_type;
  Some (old + clamp (fv * rate))%float.

(** Both records have the four categories, and every count is a
    non-negative integer that converts to a float. *)
Definition fit_to_tick (s : store) : bool :=
  forallb (λ rt, match villagers s !! rt, resources s !! rt with
                 | Some n, Some _ =>
                     (0 <=? n) && match float_of_int n with
                                  | Some _ => true
                                  | None => false
                                  end
                 | _, _ => false
                 end)
          RESOURCE_TYPES.

(** ** Persistence store *)

(** What [json.load] returns. *)
Inductive json : Type :=
| JNull
| JBool (b : bool)
| JInt (n : Z)
| JFloat (f : float)
| JString (s : string)
| JArray (items : list json)
| JObject (members : list (string * json)).

(** What [open(path, "r")] finds. *)
Inductive entry : Type :=
| Readable (text : string)
| Denied (why : string).       (* any [OSError] other than a missing file *)

Section Persistence.

(** The two paths are computed from the directory of the script. *)
Variables RESOURCES_FILE VILLAGERS_FILE : string.

(** [json.load(f)] on the content of a file, which it reads, decodes and
    parses: the value, or the exception it raises.  That is a
    [JSONDecodeError] on a text that is not JSON, and can be another one:
    a [UnicodeDecodeError] on bytes that are not in the encoding, a
    [RecursionError] on a nesting too deep, an [OSError] of the read. *)
Variable json_load : string → exn + json.

Definition default_record : json :=
  JObject [("gold", JInt 0); ("stone", JInt 0); ("wood", JInt 0); ("food", JInt 0)].

Definition file_not_found (path : string) : string :=
  "[Errno 2] No such file or directory: '" ++ path ++ "'".

Definition load_resources (disk : gmap string entry) : result json * list effect :=
  match disk !! RESOURCES_FILE with
  | None =>
      (Ok default_record,
       [Log (Text ("Error loading resources: " ++ file_not_found RESOURCES_FILE
                     ++ ".  Returning default resources."))])
  | Some (Denied why) => (Raised (OSError why), [])
  | Some (Readable text) =>
      match json_load text with
      | inr v => (Ok v, [])
      | inl (JSONDecodeError e) =>
          (Ok default_record,
           [Log (Text ("Error loading resources: " ++ e
                         ++ ".  Returning default resources."))])
      | inl e => (Raised e, [])       (* not in the [except] clause *)
      end
  end.

Definition load_villagers (disk : gmap string entry) : result json * list effect :=
  match disk !! VILLAGERS_FILE with
  | None =>
      (Ok default_record,
       [Log (Text ("Error loading villagers: " ++ file_not_found VILLAGERS_FILE
                     ++ ".  Returning default villagers."))])
  | Some (Denied why) => (Raised (OSError why), [])
  | Some (Readable text) =>
      match json_load text with
      | inr v => (Ok v, [])
      | inl (JSONDecodeError e) =>
          (Ok default_record,
           [Log (Text ("Error loading villagers: " ++ e
                         ++ ".  Returning default villagers."))])
      | inl e => (Raised e, [])       (* not in the [except] clause *)
      end
  end.

End Persistence.

(** ** Stores and parsers used in examples *)

(** Sixty villagers on gold, nothing logged yet. *)
Definition sixty_on_gold : store :=
  Store default_resources (<["gold" := 60]> default_villagers) [].

(** A parser that rejects every text. *)
Definition reject_all (text : string) : exn + json :=
  inl (JSONDecodeError "Expecting value: line 1 column 1 (char 0)").

(** The content of a file that is not UTF-8: the one byte 0xFF. *)
Definition not_utf8 : string := String "255"%char EmptyString.

(** A parser that cannot decode a content starting with the byte 0xFF,
    and rejects every other text. *)
Definition utf8_load (text : string) : exn + json :=
  match text with
  | String "255"%char _ =>
      inl (UnicodeDecodeError
             "'utf-8' codec can't decode byte 0xff in position 0: invalid start byte")
  | _ => reject_all text
  end.

(** ** Classes of binary64 values *)

(** The float made of a sign, a rounded mantissa and its exponent. *)
Definition pack (s : bool) (m e : Z) : spec_float :=
  match m with
  | 0 => S754_zero s
  | Z.pos p => if e <=? emax - prec then S754_finite s p e else S754_infinity s
  | Z.neg _ => S754_nan
  end.

(** Not a NaN, and of sign [s] unless a zero. *)
Definition signed (s : bool) (x : spec_float) : Prop :=
  match x with
  | S754_zero _ => True
  | S754_infinity s' | S754_finite s' _ _ => s' = s
  | S754_nan => False
  end.

(** Neither a NaN nor minus infinity. *)
Definition above_neg_inf (x : spec_float) : Prop :=
  match x with
  | S754_nan | S754_infinity true => False
  | _ => True
  end.

(** ** Notions used to state further properties *)

(** The string holds blanks only. *)
Fixpoint blank (s : string) : bool :=
  match s with
  | EmptyString => true
  | String c s' => PyStr.is_space c && blank s'
  end.

(** The allocation a command leaves, from the allocation it finds. *)
Definition allocation_after (parts : list string) (v : gmap string Z) : gmap string Z :=
  match parts with
  | a :: r :: _ :: n :: _ =>
      if bool_decide (PyStr.lower a = "get") then
        match PyStr.py_int n, v !! PyStr.lower r with
        | Some num, Some old =>
            if bool_decide (PyStr.lower r ∈ RESOURCE_TYPES)
               && negb (bool_decide (sum_values v - old + num > TOTAL_VILLAGERS))
            then <[PyStr.lower r := num]> v
            else v
        | _, _ => v
        end
      else v
  | _ => v
  end.

(** What the two files hold after a trace of effects, when they held
    [start] before it and every save succeeded. *)
Definition saved_villagers (start : gmap string Z) (t : list effect) : gmap string Z :=
  fold_left (λ acc e, match e with SaveVillagers v => v | _ => acc end) t start.

Definition saved_resources (start : gmap string float) (t : list effect)
  : gmap string float :=
  fold_left (λ acc e, match e with SaveResources r => r | _ => acc end) t start.

Definition is_Log (e : effect) : Prop :=
  match e with Log _ => True | _ => False end.

(** The game thread is alive, both records have the categories of the
    defaults, and the counts are non-negative with a total within the
    maximum. *)
Definition steady (p : process) : Prop :=
  ticking p = true
  ∧ map_Forall (λ _ n, 0 ≤ n) (villagers (mem p))
  ∧ sum_values (villagers (mem p)) ≤ TOTAL_VILLAGERS
  ∧ dom (villagers (mem p)) = dom default_villagers
  ∧ dom (resources (mem p)) = dom default_resources.

(** An allocation that has lost its wood, sixty villagers on stone. *)
Definition wood_lost : store :=
  Store default_resources (delete "wood" (<["stone" := 60]> default_villagers)) [].

(** ** The files of the game: records, log and its rotation *)

Module Disk.

Definition MAX_LOG_SIZE : Z := 20 * 1024 * 1024.
Definition BACKUP_LOG_SUFFIX : string := ".1".
Definition newline : string := String "010"%char EmptyString.

(** What the program finds around it: the directory of the script, the
    JSON library, and the paths that cannot be opened for reading or for
    writing, with the text of the [OSError] raised there.  [os.remove],
    [os.rename], [os.path.exists] and [os.path.getsize] are taken to
    succeed. *)
Record host : Type := Host {
  BASE_DIR : string;
  json_load : string → exn + json;
  json_dump : json → string;
  read_error : string → option string;
  write_error : string → option string
}.

Definition ends_with_slash (a : string) : bool :=
  match PyStr.rev_append a EmptyString with
  | String "/"%char _ => true
  | _ => false
  end.

(** [os.path.join(a, b)] for a relative [b]. *)
Definition join (a b : string) : string :=
  match a with
  | EmptyString => b
  | _ => if ends_with_slash a then a ++ b else a ++ "/" ++ b
  end.

Definition RESOURCES_FILE (h : host) : string := join (BASE_DIR h) "resources.json".
Definition VILLAGERS_FILE (h : host) : string := join (BASE_DIR h) "villagers.json".
Definition LOG_FILE (h : host) : string := join (BASE_DIR h) "game.log".
Definition PID_FILE (h : host) : string := join (BASE_DIR h) "game.pid".

(** The files with their text, what was printed, and the clock as
    [time.strftime] formats it. *)
Record world : Type := World {
  files : gmap string string;
  console : list string;
  now : string
}.

Definition with_files (fs : gmap string string) (w : world) : world :=
  World fs (console w) (now w).

Definition print (text : string) (w : world) : world :=
  World (files w) (console w ++ [text]) (now w).

Definition log_message (h : host) (message : string) (w : world) : world :=
  let log_entry := now w ++ " - " ++ message ++ newline in
  let w := print log_entry w in
  match write_error h (LOG_FILE h) with
  | None =>
      let old := match files w !! LOG_FILE h with Some t => t | None => EmptyString end in
      with_files (<[LOG_FILE h := old ++ log_entry]> (files w)) w
  | Some e => print ("Error writing to log file: " ++ e ++ newline) w
  end.

Definition rotate_log_file (h : host) (w : world) : world :=
  match files w !! LOG_FILE h with
  | Some text =>
      if Z.of_nat (String.length text) >? MAX_LOG_SIZE then
        let backup_file := LOG_FILE h ++ BACKUP_LOG_SUFFIX in
        let w := match files w !! backup_file with
                 | Some _ => with_files (delete backup_file (files w)) w
                 | None => w
                 end in
        let w := with_files (<[backup_file := text]> (delete (LOG_FILE h) (files w))) w in
        log_message h ("Rotated log file.  New log file: " ++ LOG_FILE h) w
      else w
  | None => w
  end.

(** One turn of the loop of [ensure_data_files]. *)
Definition ensure_data_file (h : host) (filename : string) (default_data : json)
    (w : world) : result unit * world :=
  match files w !! filename with
  | Some _ => (Ok tt, w)
  | None =>
      match write_error h filename with
      | None =>
          (Ok tt,
           log_message h ("Created " ++ filename)
             (with_files (<[filename := json_dump h default_data]> (files w)) w))
      | Some e =>
          (Raised (SystemExit 1),
           log_message h ("Error creating " ++ filename ++ ": " ++ e) w)
      end
  end.

Definition ensure_data_files (h : host) (w : world) : result unit * world :=
  match ensure_data_file h (RESOURCES_FILE h) default_record w with
  | (Ok _, w) => ensure_data_file h (VILLAGERS_FILE h) default_record w
  | (Raised e, w) => (Raised e, w)
  end.

(** What [open(path, "r")] finds in a world. *)
Definition readable (h : host) (w : world) : gmap string entry :=
  map_imap (λ path text, Some match read_error h path with
                              | Some e => Denied e
                              | None => Readable text
                              end) (files w).

(** Logs what a loader reported. *)
Definition log_effects (h : host) (effs : list effect) (w : world) : world :=
  fold_left (λ w e, match e with Log (Text m) => log_message h m w | _ => w end) effs w.

Definition load_resources (h : host) (w : world) : result json * world :=
  let '(r, effs) := load_resources (RESOURCES_FILE h) (json_load h) (readable h w) in
  (r, log_effects h effs w).

Definition load_villagers (h : host) (w : world) : result json * world :=
  let '(r, effs) := load_villagers (VILLAGERS_FILE h) (json_load h) (readable h w) in
  (r, log_effects h effs w).

Definition save_resources (h : host) (resources : json) (w : world) : world :=
  match write_error h (RESOURCES_FILE h) with
  | None => with_files (<[RESOURCES_FILE h := json_dump h resources]> (files w)) w
  | Some e => log_message h ("Error saving resources: " ++ e) w
  end.

Definition save_villagers (h : host) (villagers : json) (w : world) : world :=
  match write_error h (VILLAGERS_FILE h) with
  | None => with_files (<[VILLAGERS_FILE h := json_dump h villagers]> (files w)) w
  | Some e => log_message h ("Error saving villagers: " ++ e) w
  end.

(** The start of [main]: the files are ensured, both records are loaded,
    and the welcome is logged. *)
Definition main_start (h : host) (w : world) : result (json * json) * world :=
  match ensure_data_files h w with
  | (Raised e, w) => (Raised e, w)
  | (Ok _, w) =>
      match load_resources h w with
      | (Raised e, w) => (Raised e, w)
      | (Ok resources, w) =>
          match load_villagers h w with
          | (Raised e, w) => (Raised e, w)
          | (Ok villagers, w) =>
              (Ok (resources, villagers),
               log_message h "Type 'help' to see available commands."
                 (log_message h "Welcome to the Resource Management Game!" w))
          end
      end
  end.

(** The size of the log, as [os.path.getsize] gives it. *)
Definition log_size (h : host) (w : world) : Z :=
  match files w !! LOG_FILE h with
  | Some text => Z.of_nat (String.length text)
  | None => 0
  end.

(** A host whose files can all be opened, with a JSON library that knows
    one document. *)
Definition plain_host : host :=
  Host "/srv/game"
       (λ text, if String.eqb text "{defaults}" then inr default_record
                else reject_all text)
       (λ _, "{defaults}")
       (λ _, None) (λ _, None).

Definition empty_world : world := World ∅ [] "2024-01-01 00:00:00".

(** The same host on a file system mounted read-only. *)
Definition read_only_host : host :=
  Host (BASE_DIR plain_host) (json_load plain_host) (json_dump plain_host)
       (λ _, None)
       (λ path, Some ("[Errno 30] Read-only file system: '" ++ path ++ "'")).

(** A world with both records and a short log. *)
Definition played_world : world :=
  World (<["/srv/game/resources.json" := "{defaults}"]>
           (<["/srv/game/villagers.json" := "{defaults}"]>
              (<["/srv/game/game.log" := "2024-01-01 00:00:00 - Exiting game."
                                          ++ newline]> ∅)))
        [] "2024-01-02 00:00:00".

End Disk.

(** ** Start-up: the check for a running instance *)

(** What [os.kill(pid, 0)] does. *)
Inductive pyobj : Type :=
| PyNone
| PyBool (b : bool).

(** [a == b] on the objects above. *)
Definition py_eq (a b : pyobj) : bool :=
  match a, b with
  | PyNone, PyNone => true
  | PyBool x, PyBool y => Bool.eqb x y
  | _, _ => false
  end.

Inductive kill_result : Type :=
| Returned (v : pyobj)
| ProcessLookupError
| OtherKillError (text : string).

Inductive launch_outcome : Type :=
| RunsMain
| AlreadyRunning (pid : Z)        (* prints the message and exits with status 1 *)
| Uncaught (text : string).       (* an exception the block does not catch *)

(** The non-daemon branch of the script, from the text of the PID file
    ([None] when it is missing). *)
Definition launch (pid_file : option string) (os_kill : Z → kill_result)
  : launch_outcome :=
  match pid_file with
  | None => RunsMain
  | Some text =>
      match PyStr.py_int (PyStr.strip text) with
      | None => Uncaught "invalid literal for int() with base 10"
      | Some pid =>
          match os_kill pid with
          | Returned v => if py_eq v (PyBool true) then AlreadyRunning pid else RunsMain
          | ProcessLookupError => RunsMain
          | OtherKillError e => Uncaught e
          end
      end
  end.

(** * Properties *)

(** ** The command interpreter *)

#[local] Arguments PyStr.py_int : simpl never.
#[local] Arguments PyStr.lower : simpl never.
#[local] Arguments PyStr.str : simpl never.
#[local] Arguments sum_values : simpl never.
#[local] Arguments RESOURCE_PERCENTAGES : simpl never.
#[local] Arguments float_of_int : simpl never.
#[local] Arguments game_tick : simpl never.
#[local] Arguments update_resources : simpl never.
#[local] Arguments handle_command : simpl never.

Lemma bind_unfold {A B} (m : M A) (f : A → M B) (s : store) :
  (m ≫= f) s = match m s with
               | (Ok a, s') => f a s'
               | (Raised e, s') => (Raised e, s')
               end.
Proof. reflexivity. Qed.

Lemma ret_unfold {A} (a : A) (s : store) : mret (M := M) a s = (Ok a, s).
Proof. reflexivity. Qed.

(** Runs a monadic computation whose head is known. *)
Ltac run_m :=
  repeat (rewrite ?bind_unfold, ?ret_unfold;
          unfold save_villagers, save_resources, log_message, emit, raise,
            get_villagers, get_resources, set_villagers, set_resources;
          cbn).

Lemma handle_get_tokens a a' r t3 t3' n rest rest' s :
  handle_get (a :: r :: t3 :: n :: rest) s = handle_get (a' :: r :: t3' :: n :: rest') s.
Proof.
  unfold handle_get.
  rewrite !bool_decide_eq_false_2 by (simpl; lia).
  reflexivity.
Qed.

(** What a [get] with four tokens or more does once its count is parsed. *)
Lemma handle_get_parsed a r t3 n rest num s :
  PyStr.py_int n = Some num →
  handle_get (a :: r :: t3 :: n :: rest) s =
    if bool_decide (PyStr.lower r ∈ RESOURCE_TYPES) then
      match villagers s !! PyStr.lower r with
      | None => (Raised (KeyError (PyStr.lower r)), s)
      | Some old =>
          if bool_decide (sum_values (villagers s) - old + num > TOTAL_VILLAGERS)
          then (Ok tt, with_trace s [Log (Text (too_many_message (sum_values (villagers s))))])
          else (Ok tt, Store (resources s) (<[PyStr.lower r := num]> (villagers s))
                         (trace s ++ [SaveVillagers (<[PyStr.lower r := num]> (villagers s));
                                      Log (Text (set_message num (PyStr.lower r)))]))
      end
    else (Ok tt, with_trace s [Log (Text (invalid_resource_message (PyStr.lower r)))]).
Proof.
  intros Hn. unfold handle_get.
  rewrite bool_decide_eq_false_2 by (simpl; lia).
  run_m. rewrite Hn.
  case_bool_decide; [|reflexivity].
  run_m. unfold subscript.
  destruct (villagers s !! PyStr.lower r) as [old|]; [|reflexivity].
  run_m. case_bool_decide; [reflexivity|].
  run_m. rewrite <- app_assoc. reflexivity.
Qed.

Lemma handle_get_unparsed a r t3 n rest s :
  PyStr.py_int n = None →
  handle_get (a :: r :: t3 :: n :: rest) s =
    (Ok tt, with_trace s [Log (Text invalid_number_message)]).
Proof.
  intros Hn. unfold handle_get.
  rewrite bool_decide_eq_false_2 by (simpl; lia).
  run_m. rewrite Hn. reflexivity.
Qed.

Lemma handle_parts_get a rest s :
  PyStr.lower a = "get" → handle_parts (a :: rest) s = handle_get (a :: rest) s.
Proof. intros H. unfold handle_parts. rewrite bool_decide_eq_true_2; done. Qed.

(** C1, as the code has it.  A [get] command of fewer than three tokens
    logs the usage error, raises nothing and changes neither the ledger
    nor the allocation. *)
Theorem get_too_short_usage (a : string) (rest : list string) (s : store) :
  PyStr.lower a = "get" →
  (length (a :: rest) < 3)%nat →
  handle_parts (a :: rest) s =
    (Ok tt,
     Store (resources s) (villagers s)
       (trace s ++
          [Log (Text "Invalid command format. Use: get <resource> with <number> villagers/villager")])).
Proof.
  intros Ha Hlen. rewrite handle_parts_get by done.
  unfold handle_get. rewrite bool_decide_eq_true_2 by done. reflexivity.
Qed.

Lemma get_too_short_usage_witness :
  handle_parts ["GET"; "gold"] initial_store =
    (Ok tt,
     Store default_resources default_villagers
       (trace initial_store ++
          [Log (Text "Invalid command format. Use: get <resource> with <number> villagers/villager")])).
Proof.
  apply (get_too_short_usage "GET" ["gold"] initial_store).
  - reflexivity.
  - simpl. lia.
Defined.

(** C1 as stated fails: a [get] of four tokens, one fewer than the full
    form, is not answered by the usage error but carried out. *)
Lemma get_four_tokens_accepted :
  handle_command "get gold with 10" initial_store =
    (Ok tt,
     Store default_resources (<["gold" := 10]> default_villagers)
       (trace initial_store ++
          [SaveVillagers (<["gold" := 10]> default_villagers);
           Log (Text "Set 10 villagers to gold.")])).
Proof. vm_compute. reflexivity. Qed.

(** With exactly three tokens the length test [len(parts) < 3] passes and
    [parts[3]] is read: [handle_command] raises [IndexError] before it logs
    or changes anything, and the input loop of [main] logs the unexpected
    error and ends. *)
Lemma get_three_tokens_raises (r w : string) (s : store) :
  handle_parts ["get"; r; w] s = (Raised IndexError, s)
  ∧ handle_command "get gold with" s = (Raised IndexError, s)
  ∧ step (Process s true true) (Command "get gold with") =
      Process (with_trace s
                 [Log (Text "An unexpected error occurred: list index out of range");
                  Log (Text "Game exited due to error.")])
              false true.
Proof. repeat split. Qed.

(** C6.  A [get] whose new count would bring the headcount (the current
    total, minus the current count of the category, plus the new count)
    above [TOTAL_VILLAGERS] logs the over-allocation error, which shows the
    current total and the maximum; the allocation and the ledger are left
    as they were and nothing is saved. *)
Theorem get_over_allocation_rejected
    (a r t3 n : string) (rest : list string) (s : store) (num old : Z) :
  PyStr.lower a = "get" →
  PyStr.py_int n = Some num →
  PyStr.lower r ∈ RESOURCE_TYPES →
  villagers s !! PyStr.lower r = Some old →
  sum_values (villagers s) - old + num > TOTAL_VILLAGERS →
  handle_parts (a :: r :: t3 :: n :: rest) s =
    (Ok tt,
     Store (resources s) (villagers s)
       (trace s ++
          [Log (Text ("Too many villagers. You have "
                        ++ PyStr.str (sum_values (villagers s))
                        ++ " villagers assigned. You can assign a maximum of 100."))])).
Proof.
  intros Ha Hn Hr Hold Hover.
  rewrite handle_parts_get by done.
  rewrite (handle_get_parsed _ _ _ _ _ num) by done.
  rewrite bool_decide_eq_true_2 by done.
  rewrite Hold, bool_decide_eq_true_2 by done.
  reflexivity.
Qed.

Lemma get_over_allocation_rejected_witness :
  handle_parts ["get"; "stone"; "with"; "50"; "villagers"] sixty_on_gold =
    (Ok tt,
     Store default_resources (<["gold" := 60]> default_villagers)
       [Log (Text "Too many villagers. You have 60 villagers assigned. You can assign a maximum of 100.")]).
Proof.
  apply (get_over_allocation_rejected "get" "stone" "with" "50" ["villagers"]
           sixty_on_gold 50 0).
  - reflexivity.
  - reflexivity.
  - apply (bool_decide_unpack _). vm_compute. exact I.
  - reflexivity.
  - vm_compute. reflexivity.
Defined.

(** C7, as the code has it.  The count token is parsed before the resource
    name is looked at: a [get] with four tokens or more whose lower-cased
    resource name is not a resource type logs the invalid-resource error
    when the count token is an integer, and the invalid-number error when
    it is not; in both cases nothing else happens. *)
Theorem get_invalid_resource
    (a r t3 n : string) (rest : list string) (s : store) :
  PyStr.lower a = "get" →
  PyStr.lower r ∉ RESOURCE_TYPES →
  handle_parts (a :: r :: t3 :: n :: rest) s =
    (Ok tt,
     Store (resources s) (villagers s)
       (trace s ++
          [Log (Text (match PyStr.py_int n with
                      | Some _ => "Invalid resource type: " ++ PyStr.lower r
                                    ++ ".  Must be one of gold, stone, wood, food."
                      | None => "Invalid number of villagers.  Must be an integer."
                      end))])).
Proof.
  intros Ha Hr.
  rewrite handle_parts_get by done.
  destruct (PyStr.py_int n) as [num|] eqn:Hn.
  - rewrite (handle_get_parsed _ _ _ _ _ num) by done.
    rewrite bool_decide_eq_false_2 by done. reflexivity.
  - rewrite handle_get_unparsed by done. reflexivity.
Qed.

Lemma get_invalid_resource_witness :
  handle_parts ["get"; "silver"; "with"; "10"; "villagers"] initial_store =
    (Ok tt,
     Store default_resources default_villagers
       (trace initial_store ++
          [Log (Text "Invalid resource type: silver.  Must be one of gold, stone, wood, food.")])).
Proof.
  apply (get_invalid_resource "get" "silver" "with" "10" ["villagers"] initial_store).
  - reflexivity.
  - apply (bool_decide_unpack _). vm_compute. exact I.
Defined.

(** C7 as stated fails: with a count token that is not an integer, an
    unknown resource name is answered by the invalid-number error. *)
Lemma get_invalid_resource_bad_count :
  ("silver" ∉ RESOURCE_TYPES)
  ∧ (handle_command "get silver with many villagers" initial_store =
      (Ok tt, with_trace initial_store
                [Log (Text "Invalid number of villagers.  Must be an integer.")]))
  ∧ (handle_command "get silver with many villagers" initial_store ≠
      (Ok tt, with_trace initial_store [Log (Text (invalid_resource_message "silver"))])).
Proof.
  split; [apply (bool_decide_unpack _); vm_compute; exact I|].
  split; [reflexivity|].
  vm_compute. discriminate.
Qed.

(** C9.  [status] and [help] only log: the ledger and the allocation of
    the resulting store are those of the starting one.  A command whose
    action keyword is none of [get], [status], [help], [exit] logs the
    unknown-command message, which shows the lower-cased keyword and points
    to [help], and changes neither record. *)
Theorem status_help_unknown_frame (a : string) (rest : list string) (s : store) :
  (PyStr.lower a = "status" →
     handle_parts (a :: rest) s =
       (Ok tt,
        Store (resources s) (villagers s)
          (trace s ++
             [Log (CurrentResources (resources s));
              Log (VillagerAllocation (villagers s));
              Log (Text ("Total Gathering Villagers: "
                           ++ PyStr.str (sum_values (villagers s))))])))
  ∧ (PyStr.lower a = "help" →
     handle_parts (a :: rest) s =
       (Ok tt,
        Store (resources s) (villagers s)
          (trace s ++ map (λ line, Log (Text line)) help_messages)))
  ∧ (PyStr.lower a ∉ ["get"; "status"; "help"; "exit"] →
     handle_parts (a :: rest) s =
       (Ok tt,
        Store (resources s) (villagers s)
          (trace s ++
             [Log (Text ("Unknown command: " ++ PyStr.lower a
                           ++ ". Type 'help' for available commands."))]))).
Proof.
  unfold handle_parts. repeat split.
  - intros ->. rewrite bool_decide_eq_false_2 by discriminate.
    rewrite bool_decide_eq_true_2 by reflexivity.
    unfold handle_status. run_m.
    rewrite <- !app_assoc. reflexivity.
  - intros ->. rewrite !bool_decide_eq_false_2 by discriminate.
    rewrite bool_decide_eq_true_2 by reflexivity.
    unfold handle_help. run_m.
    rewrite <- !app_assoc. reflexivity.
  - intros Hu.
    rewrite !bool_decide_eq_false_2 by (intros E; apply Hu; rewrite E; set_solver).
    reflexivity.
Qed.

Lemma status_help_unknown_frame_witness :
  handle_parts ["STATUS"] initial_store =
    (Ok tt,
     Store default_resources default_villagers
       (trace initial_store ++
          [Log (CurrentResources default_resources);
           Log (VillagerAllocation default_villagers);
           Log (Text "Total Gathering Villagers: 0")]))
  ∧ handle_parts ["help"; "me"] initial_store =
      (Ok tt,
       Store default_resources default_villagers
         (trace initial_store ++ map (λ line, Log (Text line)) help_messages))
  ∧ handle_parts ["foo"] initial_store =
      (Ok tt,
       Store default_resources default_villagers
         (trace initial_store ++
            [Log (Text "Unknown command: foo. Type 'help' for available commands.")])).
Proof.
  split; [|split].
  - apply (proj1 (status_help_unknown_frame "STATUS" [] initial_store)).
    reflexivity.
  - apply (proj1 (proj2 (status_help_unknown_frame "help" ["me"] initial_store))).
    reflexivity.
  - apply (proj2 (proj2 (status_help_unknown_frame "foo" [] initial_store))).
    apply (bool_decide_unpack _). vm_compute. exact I.
Defined.

(** C10.  Of a command with four tokens or more, [handle_command] reads
    the first, the second and the fourth only: replacing the third token
    and whatever follows the fourth changes nothing.  So
    [get gold anything 10 whatever] does what [get gold with 10 villagers]
    does, which from the initial state is to put ten villagers on gold. *)
Theorem get_reads_second_and_fourth_token :
  (∀ (a r t3 t3' n : string) (rest rest' : list string) (s : store),
     handle_parts (a :: r :: t3 :: n :: rest) s
     = handle_parts (a :: r :: t3' :: n :: rest') s)
  ∧ (∀ s : store,
       handle_command "get gold anything 10 whatever" s
       = handle_command "get gold with 10 villagers" s)
  ∧ handle_command "get gold anything 10 whatever" initial_store =
      (Ok tt,
       Store default_resources (<["gold" := 10]> default_villagers)
         (trace initial_store ++
            [SaveVillagers (<["gold" := 10]> default_villagers);
             Log (Text "Set 10 villagers to gold.")])).
Proof.
  assert (H : ∀ (a r t3 t3' n : string) (rest rest' : list string) (s : store),
             handle_parts (a :: r :: t3 :: n :: rest) s
             = handle_parts (a :: r :: t3' :: n :: rest') s).
  { intros. unfold handle_parts.
    case_bool_decide; [apply handle_get_tokens | reflexivity]. }
  split; [exact H|]. split.
  - intros s. apply (H "get" "gold" "anything" "with" "10" ["whatever"] ["villagers"]).
  - vm_compute. reflexivity.
Qed.

(** ** The allocation across commands and ticks *)

Lemma sum_values_insert (d : gmap string Z) (k : string) (old new : Z) :
  d !! k = Some old → sum_values (<[k := new]> d) = sum_values d - old + new.
Proof.
  intros Hk. unfold sum_values.
  rewrite <- (insert_delete_eq d).
  rewrite map_fold_insert_L; [|intros; lia|apply lookup_delete_eq].
  rewrite (map_fold_delete_L _ _ k old d); [lia|intros; lia|done].
Qed.

(** A command leaves the ledger alone, and either leaves the allocation
    alone or replaces one count by the parsed one, the new total being
    within the maximum. *)
Lemma handle_parts_effect (parts : list string) (s : store) :
  let s' := (handle_parts parts s).2 in
  resources s' = resources s
  ∧ (villagers s' = villagers s
     ∨ ∃ rt old num,
         count_token parts = Some num
         ∧ villagers s !! rt = Some old
         ∧ sum_values (villagers s) - old + num ≤ TOTAL_VILLAGERS
         ∧ villagers s' = <[rt := num]> (villagers s)).
Proof.
  destruct parts as [|a rest]; [by split; [|left]|].
  unfold handle_parts.
  case_bool_decide as Ha.
  - destruct rest as [|r [|t3 [|n rest]]]; try (by split; [|left]).
    destruct (PyStr.py_int n) as [num|] eqn:Hn.
    + rewrite (handle_get_parsed _ _ _ _ _ num) by done.
      case_bool_decide; [|by split; [|left]].
      destruct (villagers s !! PyStr.lower r) as [old|] eqn:Hold;
        [|by split; [|left]].
      case_bool_decide as Hover; [by split; [|left]|].
      split; [done|right]. exists (PyStr.lower r), old, num.
      split; [exact Hn|]. split; [exact Hold|]. split; [lia|done].
    + rewrite handle_get_unparsed by done. by split; [|left].
  - repeat case_bool_decide; by split; [|left].
Qed.

#[local] Arguments handle_parts : simpl never.

(** One iteration of the accumulator, case by case. *)
Lemma update_resource_unfold (rt : string) (s : store) :
  update_resource rt s =
    match villagers s !! rt with
    | None => (Raised (KeyError rt), s)
    | Some n =>
        match RESOURCE_PERCENTAGES !! rt with
        | None => (Raised (KeyError rt), s)
        | Some rate =>
            match float_of_int n with
            | None => (Raised OverflowError, s)
            | Some fv =>
                match resources s !! rt with
                | None => (Raised (KeyError rt), s)
                | Some old =>
                    (Ok tt,
                     Store (<[rt := (old + clamp (fv * rate))%float]> (resources s))
                           (villagers s)
                           (trace s ++ [Log (Updated rt (clamp (fv * rate)%float) n)]))
                end
            end
        end
    end.
Proof.
  unfold update_resource, subscript. run_m.
  destruct (villagers s !! rt) as [n|]; [|reflexivity]. run_m.
  destruct (RESOURCE_PERCENTAGES !! rt) as [rate|]; [|reflexivity]. run_m.
  destruct (float_of_int n) as [fv|]; [|reflexivity]. run_m.
  destruct (resources s !! rt) as [old|]; [|reflexivity]. run_m.
  reflexivity.
Qed.

(** A tick leaves the allocation alone. *)
Lemma update_resource_villagers (rt : string) (s : store) :
  villagers (update_resource rt s).2 = villagers s.
Proof.
  rewrite update_resource_unfold. repeat case_match; done.
Qed.

Lemma for_each_villagers (f : string → M unit) (l : list string) (s : store) :
  (∀ x s, villagers (f x s).2 = villagers s) →
  villagers (for_each f l s).2 = villagers s.
Proof.
  intros Hf. revert s. induction l as [|x l IH]; intros s; [done|].
  cbn. rewrite bind_unfold.
  specialize (Hf x s). destruct (f x s) as [[[]|e] s1]; cbn in *.
  - rewrite IH. done.
  - done.
Qed.

Lemma game_tick_villagers (s : store) : villagers (game_tick s).2 = villagers s.
Proof.
  unfold game_tick. rewrite bind_unfold.
  pose proof (for_each_villagers update_resource RESOURCE_TYPES s
                update_resource_villagers) as H.
  fold update_resources in H.
  destruct (update_resources s) as [[[]|e] s1]; cbn in *; done.
Qed.

(** Every step of the process is a command, a tick or nothing, as far as
    the allocation goes. *)
Lemma step_villagers (p : process) (ev : event) :
  villagers (mem (step p ev)) = villagers (mem p)
  ∨ ∃ line, ev = Command line
      ∧ villagers (mem (step p ev))
        = villagers (handle_command (PyStr.strip line) (mem p)).2.
Proof.
  unfold step. destruct (alive p); cbn; [|by left].
  destruct ev as [line| |].
  - right. exists line. split; [done|].
    unfold after_command.
    destruct (handle_command (PyStr.strip line) (mem p)) as [[[]|e] s1]; cbn; [done|].
    destruct (is_Exception e); done.
  - left. destruct (ticking p); [|done].
    pose proof (game_tick_villagers (mem p)) as H.
    destruct (game_tick (mem p)) as [[[]|e] s1]; cbn in *; done.
  - by left.
Qed.

Lemma run_snoc (p : process) (evs : list event) (ev : event) :
  run p (evs ++ [ev]) = step (run p evs) ev.
Proof. unfold run. rewrite fold_left_app. done. Qed.

Lemma initial_sum : sum_values (villagers (mem initial)) = 0.
Proof. vm_compute. reflexivity. Qed.

(** C3.  In every state reached from the zero-valued initial state by
    commands, ticks and interrupts, the villager counts add up to at most
    [TOTAL_VILLAGERS]; and whatever the store it starts from, a command
    that changes the allocation leaves a total within the maximum. *)
Theorem total_villagers_bounded :
  (∀ evs : list event,
     sum_values (villagers (mem (run initial evs))) ≤ TOTAL_VILLAGERS)
  ∧ (∀ (command : string) (s : store),
       villagers (handle_command command s).2 ≠ villagers s →
       sum_values (villagers (handle_command command s).2) ≤ TOTAL_VILLAGERS).
Proof.
  assert (Hcmd : ∀ (command : string) (s : store),
             villagers (handle_command command s).2 ≠ villagers s →
             sum_values (villagers (handle_command command s).2) ≤ TOTAL_VILLAGERS).
  { intros command s Hne. unfold handle_command in *.
    destruct (handle_parts_effect (PyStr.split command) s)
      as [_ [Heq|(rt & old & num & _ & Hold & Hle & ->)]]; [done|].
    by rewrite (sum_values_insert _ _ old). }
  split; [|exact Hcmd].
  induction evs as [|ev evs IH] using rev_ind.
  - change (run initial []) with initial.
    rewrite initial_sum. unfold TOTAL_VILLAGERS. lia.
  - rewrite run_snoc.
    destruct (step_villagers (run initial evs) ev) as [->|(line & -> & Hv)]; [done|].
    destruct (decide (villagers (handle_command (PyStr.strip line) (mem (run initial evs))).2
                      = villagers (mem (run initial evs)))) as [Heq|Hne].
    + rewrite Hv, Heq. done.
    + rewrite Hv. by apply Hcmd.
Qed.

Lemma total_villagers_bounded_witness :
  sum_values (villagers (handle_command "get wood with 40 villagers" sixty_on_gold).2)
    ≤ TOTAL_VILLAGERS.
Proof.
  apply (proj2 total_villagers_bounded "get wood with 40 villagers" sixty_on_gold).
  vm_compute. discriminate.
Defined.

(** C2, as the code has it.  [handle_command] checks no sign: a successful
    [get] stores the integer its count token denotes, whatever its sign.
    So the counts are non-negative in every state reached from the initial
    state by events none of which is a command with a negative count. *)
Theorem counts_nonnegative :
  (∀ (evs : list event) (rt : string) (v : Z),
     forallb nonneg_count evs = true →
     villagers (mem (run initial evs)) !! rt = Some v → 0 ≤ v)
  ∧ (∀ (a r t3 n : string) (rest : list string) (s : store) (num old : Z),
       PyStr.lower a = "get" →
       PyStr.py_int n = Some num →
       PyStr.lower r ∈ RESOURCE_TYPES →
       villagers s !! PyStr.lower r = Some old →
       sum_values (villagers s) - old + num ≤ TOTAL_VILLAGERS →
       villagers (handle_parts (a :: r :: t3 :: n :: rest) s).2 !! PyStr.lower r
       = Some num).
Proof.
  split.
  - induction evs as [|ev evs IH] using rev_ind; intros rt v Hall Hv.
    + change (run initial []) with initial in Hv.
      assert (Hz : map_Forall (λ _ x, 0 ≤ x) (villagers (mem initial))).
      { apply (bool_decide_unpack _). vm_compute. exact I. }
      exact (Hz _ _ Hv).
    + rewrite forallb_app in Hall. apply andb_prop in Hall as [Hall Hev].
      cbn in Hev. rewrite andb_true_r in Hev.
      rewrite run_snoc in Hv.
      destruct (step_villagers (run initial evs) ev) as [E|(line & -> & E)];
        rewrite E in Hv; [by eapply IH|].
      unfold handle_command in Hv.
      destruct (handle_parts_effect (PyStr.split (PyStr.strip line))
                  (mem (run initial evs)))
        as [_ [E'|(rt' & old & num & Hn & _ & _ & E')]];
        rewrite E' in Hv; [by eapply IH|].
      cbn in Hev. rewrite Hn in Hev.
      destruct (decide (rt' = rt)) as [->|Hne].
      * rewrite lookup_insert_eq in Hv. injection Hv as <-. lia.
      * rewrite lookup_insert_ne in Hv by done. by eapply IH.
  - intros a r t3 n rest s num old Ha Hn Hr Hold Hle.
    rewrite handle_parts_get by done.
    rewrite (handle_get_parsed _ _ _ _ _ num) by done.
    rewrite bool_decide_eq_true_2 by done.
    rewrite Hold, bool_decide_eq_false_2 by lia.
    cbn. apply lookup_insert_eq.
Qed.

Lemma counts_nonnegative_witness :
  0 ≤ 10
  ∧ villagers (handle_parts ["get"; "wood"; "with"; "-7"; "villagers"] initial_store).2
      !! "wood" = Some (-7).
Proof.
  split.
  - apply (proj1 counts_nonnegative
             [Command "get gold with 10 villagers"; Tick] "gold" 10).
    + vm_compute. reflexivity.
    + vm_compute. reflexivity.
  - apply (proj2 counts_nonnegative "get" "wood" "with" "-7" ["villagers"]
             initial_store (-7) 0).
    + reflexivity.
    + reflexivity.
    + apply (bool_decide_unpack _). vm_compute. exact I.
    + reflexivity.
    + vm_compute. discriminate.
Defined.

(** C2 as stated fails: from the initial state, [get gold with -5 villagers]
    succeeds and stores a negative count. *)
Lemma negative_count_stored :
  villagers (mem (run initial [Command "get gold with -5 villagers"])) !! "gold"
  = Some (-5)
  ∧ trace (mem (run initial [Command "get gold with -5 villagers"]))
    = (trace initial_store ++
         [SaveVillagers (<["gold" := -5]> default_villagers);
          Log (Text "Set -5 villagers to gold.")])%list.
Proof. split; vm_compute; reflexivity. Qed.

(** ** Persistence *)

(** X25.  The errors the loaders handle.  When the file of a record is
    missing, or [json.load] raises [JSONDecodeError] on it, [load_resources]
    and [load_villagers] return the default record, all four categories at
    zero, log one warning and raise nothing. *)
Theorem load_defaults_on_missing_or_corrupt
    (RESOURCES_FILE VILLAGERS_FILE : string) (json_load : string → exn + json)
    (disk : gmap string entry) :
  (disk !! RESOURCES_FILE = None
   ∨ (∃ text e, disk !! RESOURCES_FILE = Some (Readable text)
                ∧ json_load text = inl (JSONDecodeError e)) →
   ∃ warning,
     load_resources RESOURCES_FILE json_load disk
     = (Ok (JObject [("gold", JInt 0); ("stone", JInt 0); ("wood", JInt 0); ("food", JInt 0)]),
        [Log (Text warning)]))
  ∧ (disk !! VILLAGERS_FILE = None
     ∨ (∃ text e, disk !! VILLAGERS_FILE = Some (Readable text)
                  ∧ json_load text = inl (JSONDecodeError e)) →
     ∃ warning,
       load_villagers VILLAGERS_FILE json_load disk
       = (Ok (JObject [("gold", JInt 0); ("stone", JInt 0); ("wood", JInt 0); ("food", JInt 0)]),
          [Log (Text warning)])).
Proof.
  split; intros [Hnone|(text & e & Hsome & Hbad)].
  - unfold load_resources. rewrite Hnone. eauto.
  - unfold load_resources. rewrite Hsome, Hbad. eauto.
  - unfold load_villagers. rewrite Hnone. eauto.
  - unfold load_villagers. rewrite Hsome, Hbad. eauto.
Qed.

Lemma load_defaults_on_missing_or_corrupt_witness :
  (∃ warning,
     load_resources "resources.json" reject_all
       {["resources.json" := Readable "{"]}
     = (Ok default_record, [Log (Text warning)]))
  ∧ (∃ warning,
       load_villagers "villagers.json" reject_all
         {["resources.json" := Readable "{"]}
       = (Ok default_record, [Log (Text warning)])).
Proof.
  pose proof (load_defaults_on_missing_or_corrupt "resources.json" "villagers.json"
                reject_all {["resources.json" := Readable "{"]}) as [Hr Hv].
  split.
  - apply Hr. right. exists "{", "Expecting value: line 1 column 1 (char 0)".
    split; reflexivity.
  - apply Hv. left. reflexivity.
Defined.

(** C8, a defect of the code.  The loaders catch [FileNotFoundError] and
    [JSONDecodeError] and nothing else.  When [json.load] raises another
    exception on the content of the file, as it does on bytes that are not
    UTF-8, the loader returns no record and logs no warning: the exception
    leaves [load_resources] or [load_villagers] as it is. *)
Theorem load_lets_other_errors_through
    (RESOURCES_FILE VILLAGERS_FILE : string) (json_load : string → exn + json)
    (disk : gmap string entry) (text : string) (e : exn) :
  json_load text = inl e →
  (∀ m, e ≠ JSONDecodeError m) →
  (disk !! RESOURCES_FILE = Some (Readable text) →
   load_resources RESOURCES_FILE json_load disk = (Raised e, []))
  ∧ (disk !! VILLAGERS_FILE = Some (Readable text) →
     load_villagers VILLAGERS_FILE json_load disk = (Raised e, [])).
Proof.
  intros Hbad Hother. split; intros Hsome.
  - unfold load_resources. rewrite Hsome, Hbad.
    destruct e as [| | | |m| | |]; try reflexivity. by destruct (Hother m).
  - unfold load_villagers. rewrite Hsome, Hbad.
    destruct e as [| | | |m| | |]; try reflexivity. by destruct (Hother m).
Qed.

(** Both files hold the byte 0xFF. *)
Lemma load_lets_other_errors_through_witness :
  load_resources "resources.json" utf8_load
    (<["resources.json" := Readable not_utf8]>
       {["villagers.json" := Readable not_utf8]})
  = (Raised (UnicodeDecodeError
               "'utf-8' codec can't decode byte 0xff in position 0: invalid start byte"),
     [])
  ∧ load_villagers "villagers.json" utf8_load
      (<["resources.json" := Readable not_utf8]>
         {["villagers.json" := Readable not_utf8]})
    = (Raised (UnicodeDecodeError
                 "'utf-8' codec can't decode byte 0xff in position 0: invalid start byte"),
       []).
Proof.
  split.
  - apply (proj1 (load_lets_other_errors_through "resources.json" "villagers.json"
                    utf8_load _ not_utf8 _ eq_refl ltac:(discriminate))).
    reflexivity.
  - apply (proj2 (load_lets_other_errors_through "resources.json" "villagers.json"
                    utf8_load _ not_utf8 _ eq_refl ltac:(discriminate))).
    reflexivity.
Defined.

(** ** Binary64 arithmetic: facts about the specification of the operations *)

Module Binary64.

Lemma digits2_pos_bounds (p : positive) :
  2 ^ (Z.pos (digits2_pos p) - 1) ≤ Z.pos p < 2 ^ Z.pos (digits2_pos p).
Proof.
  induction p as [p IH|p IH|]; cbn [digits2_pos].
  - rewrite Pos2Z.inj_succ, Z.pow_succ_r by lia.
    replace (Z.succ (Z.pos (digits2_pos p)) - 1) with (Z.succ (Z.pos (digits2_pos p) - 1)) by lia.
    rewrite Z.pow_succ_r by lia. lia.
  - rewrite Pos2Z.inj_succ, Z.pow_succ_r by lia.
    replace (Z.succ (Z.pos (digits2_pos p)) - 1) with (Z.succ (Z.pos (digits2_pos p) - 1)) by lia.
    rewrite Z.pow_succ_r by lia. lia.
  - cbn. lia.
Qed.

Lemma Zdigits2_bounds (m : Z) :
  0 < m → 0 < Zdigits2 m ∧ 2 ^ (Zdigits2 m - 1) ≤ m < 2 ^ Zdigits2 m.
Proof.
  destruct m as [|p|p]; try lia. intros _. cbn [Zdigits2].
  split; [lia|apply digits2_pos_bounds].
Qed.

(** Fewer digits at a lower position mean a smaller number. *)
Lemma scaled_le_digits (a b p q : Z) :
  0 < a → 0 < b → 0 ≤ p → 0 ≤ q →
  a * 2 ^ p ≤ b * 2 ^ q → Zdigits2 a + p ≤ Zdigits2 b + q.
Proof.
  intros Ha Hb Hp Hq Hle.
  destruct (Zdigits2_bounds a Ha) as (Hda & Ha1 & _).
  destruct (Zdigits2_bounds b Hb) as (Hdb & _ & Hb2).
  assert (H1 : 2 ^ (Zdigits2 a - 1 + p) ≤ a * 2 ^ p).
  { rewrite Z.pow_add_r by lia. apply Z.mul_le_mono_nonneg_r; [apply Z.pow_nonneg|]; lia. }
  assert (H2 : b * 2 ^ q < 2 ^ (Zdigits2 b + q)).
  { rewrite Z.pow_add_r by lia. apply Z.mul_lt_mono_pos_r; [apply Z.pow_pos_nonneg|]; lia. }
  assert (H3 : 2 ^ (Zdigits2 a - 1 + p) < 2 ^ (Zdigits2 b + q)) by lia.
  apply Z.pow_lt_mono_r_iff in H3; lia.
Qed.

Lemma shr_1_m (mrs : shr_record) :
  0 ≤ shr_m mrs → shr_m (shr_1 mrs) = shr_m mrs / 2.
Proof.
  destruct mrs as [m r s]. cbn [shr_m].
  destruct m as [|[p|p|]|p]; cbn [shr_1 shr_m]; intros H; try lia.
  - reflexivity.
  - apply (Z.div_unique _ _ _ 1); lia.
  - apply (Z.div_unique _ _ _ 0); lia.
  - reflexivity.
Qed.

Lemma iter_pos_shr_1_m (p : positive) (mrs : shr_record) :
  0 ≤ shr_m mrs → shr_m (SpecFloat.iter_pos shr_1 p mrs) = shr_m mrs / 2 ^ Z.pos p.
Proof.
  revert mrs. induction p as [p IH|p IH|]; intros mrs H; cbn [SpecFloat.iter_pos].
  - assert (H1 : 0 ≤ shr_m (shr_1 mrs)).
    { rewrite shr_1_m by done. apply Z.div_pos; lia. }
    assert (H2 : 0 ≤ shr_m (SpecFloat.iter_pos shr_1 p (shr_1 mrs))).
    { rewrite IH by done. apply Z.div_pos; [lia|apply Z.pow_pos_nonneg; lia]. }
    rewrite IH, IH, shr_1_m by done.
    rewrite !Z.div_div by (try apply Z.pow_pos_nonneg; lia).
    f_equal. rewrite (Pos2Z.inj_xI p).
    replace (2 * Z.pos p + 1) with (1 + Z.pos p + Z.pos p) by lia.
    rewrite !Z.pow_add_r by lia. lia.
  - assert (H2 : 0 ≤ shr_m (SpecFloat.iter_pos shr_1 p mrs)).
    { rewrite IH by done. apply Z.div_pos; [lia|apply Z.pow_pos_nonneg; lia]. }
    rewrite IH, IH by done.
    rewrite !Z.div_div by (try apply Z.pow_pos_nonneg; lia).
    f_equal. rewrite (Pos2Z.inj_xO p).
    replace (2 * Z.pos p) with (Z.pos p + Z.pos p) by lia.
    rewrite !Z.pow_add_r by lia. lia.
  - rewrite shr_1_m by done. reflexivity.
Qed.

Lemma shr_record_of_loc_m (m : Z) (l : location) :
  shr_m (shr_record_of_loc m l) = m.
Proof. destruct l as [|[]]; reflexivity. Qed.

(** [shr_fexp] brings a mantissa to the exponent the format asks for,
    dropping the low bits, when that exponent is higher. *)
Lemma shr_fexp_spec (m e : Z) (l : location) :
  0 ≤ m →
  let e' := Z.max e (fexp prec emax (Zdigits2 m + e)) in
  (shr_fexp prec emax m e l).2 = e'
  ∧ shr_m (shr_fexp prec emax m e l).1 = m / 2 ^ (e' - e).
Proof.
  intros Hm e'. unfold shr_fexp, shr.
  destruct (fexp prec emax (Zdigits2 m + e) - e) as [|p|p] eqn:Hd; cbn [fst snd].
  - rewrite shr_record_of_loc_m.
    replace e' with e by lia. rewrite Z.sub_diag, Z.div_1_r. done.
  - rewrite iter_pos_shr_1_m by (rewrite shr_record_of_loc_m; done).
    rewrite shr_record_of_loc_m.
    replace e' with (e + Z.pos p) by lia.
    replace (e + Z.pos p - e) with (Z.pos p) by lia. done.
  - rewrite shr_record_of_loc_m.
    replace e' with e by lia. rewrite Z.sub_diag, Z.div_1_r. done.
Qed.

Lemma round_nearest_even_bounds (m : Z) (l : location) :
  m ≤ round_nearest_even m l ≤ m + 1.
Proof.
  unfold round_nearest_even. destruct l as [|[]]; try lia.
  destruct (Z.even m); lia.
Qed.

(** [binary_round_aux] in closed form, up to the direction of rounding. *)
Lemma binary_round_aux_spec (s : bool) (m e : Z) (l : location) :
  0 ≤ m →
  let e1 := Z.max e (fexp prec emax (Zdigits2 m + e)) in
  let m1 := m / 2 ^ (e1 - e) in
  ∃ m1', m1 ≤ m1' ≤ m1 + 1 ∧
    let e2 := Z.max e1 (fexp prec emax (Zdigits2 m1' + e1)) in
    binary_round_aux prec emax s m e l = pack s (m1' / 2 ^ (e2 - e1)) e2.
Proof.
  intros Hm e1 m1. unfold binary_round_aux.
  destruct (shr_fexp_spec m e l Hm) as [He1 Hm1].
  destruct (shr_fexp prec emax m e l) as [mrs1 e1'] eqn:H1. cbn [fst snd] in *.
  fold e1 in He1, Hm1. fold m1 in Hm1. subst e1'.
  set (m1' := round_nearest_even (shr_m mrs1) (loc_of_shr_record mrs1)).
  assert (Hb : m1 ≤ m1' ≤ m1 + 1).
  { rewrite <- Hm1. apply round_nearest_even_bounds. }
  assert (Hm1pos : 0 ≤ m1).
  { apply Z.div_pos; [done|apply Z.pow_pos_nonneg; lia]. }
  exists m1'. split; [done|]. cbv zeta.
  set (e2 := Z.max e1 (fexp prec emax (Zdigits2 m1' + e1))).
  destruct (shr_fexp_spec m1' e1 loc_Exact ltac:(lia)) as [He2 Hm2].
  destruct (shr_fexp prec emax m1' e1 loc_Exact) as [mrs2 e2'] eqn:H2.
  cbn [fst snd] in *. fold e2 in He2, Hm2. subst e2'. rewrite Hm2.
  reflexivity.
Qed.

(** *** Sign and class of rounded results *)

Lemma pack_signed (s : bool) (m e : Z) : 0 ≤ m → signed s (pack s m e).
Proof.
  destruct m as [|p|p]; cbn; [done| |lia]. intros _.
  destruct (e <=? emax - prec); done.
Qed.

Lemma binary_round_aux_signed (s : bool) (m e : Z) (l : location) :
  0 ≤ m → signed s (binary_round_aux prec emax s m e l).
Proof.
  intros Hm. destruct (binary_round_aux_spec s m e l Hm) as (m1' & Hb & ->).
  apply pack_signed. apply Z.div_pos; [|apply Z.pow_pos_nonneg; lia].
  assert (0 ≤ m / 2 ^ (Z.max e (fexp prec emax (Zdigits2 m + e)) - e)); [|lia].
  apply Z.div_pos; [done|apply Z.pow_pos_nonneg; lia].
Qed.

Lemma binary_round_signed (s : bool) (m : positive) (e : Z) :
  signed s (binary_round prec emax s m e).
Proof.
  unfold binary_round.
  destruct (shl_align m e (fexp prec emax (Z.pos (digits2_pos m) + e))) as [mz ez].
  apply binary_round_aux_signed. lia.
Qed.

Lemma binary_normalize_signed (m e : Z) :
  signed (m <? 0) (binary_normalize prec emax m e false).
Proof.
  destruct m as [|p|p]; cbn [binary_normalize]; [done|..];
    apply binary_round_signed.
Qed.

(** *** Alignment *)

Lemma shl_align_ge (m : positive) (e e' : Z) : e ≤ e' → shl_align m e e' = (m, e).
Proof. intros H. unfold shl_align. destruct (e' - e) eqn:Hd; [done..|lia]. Qed.

Lemma shl_align_lt (m : positive) (e e' : Z) :
  e' < e →
  (shl_align m e e').2 = e' ∧ Z.pos (shl_align m e e').1 = Z.pos m * 2 ^ (e - e').
Proof.
  intros H. unfold shl_align. destruct (e' - e) as [|d|d] eqn:Hd; try lia.
  cbn [fst snd]. split; [done|].
  replace (e - e') with (Z.pos d) by lia.
  pose proof (shift_pos_correct d m) as Hs. unfold shift_pos in Hs.
  rewrite Hs. rewrite <- Z.pow_pos_fold. lia.
Qed.

(** *** Order *)

Lemma fexp_mono (a b : Z) : a ≤ b → fexp prec emax a ≤ fexp prec emax b.
Proof. unfold fexp, emin. lia. Qed.

Lemma fexp_ge_emin (a : Z) : emin ≤ fexp prec emax a.
Proof. unfold fexp, emin. lia. Qed.

Lemma div_pow2_lower (a k : Z) :
  0 < a → 0 ≤ k < Zdigits2 a → 2 ^ (Zdigits2 a - 1 - k) ≤ a / 2 ^ k.
Proof.
  intros Ha Hk. destruct (Zdigits2_bounds a Ha) as (_ & Hl & _).
  apply Z.div_le_lower_bound; [apply Z.pow_pos_nonneg; lia|].
  rewrite <- Z.pow_add_r by lia.
  replace (k + (Zdigits2 a - 1 - k)) with (Zdigits2 a - 1) by lia. done.
Qed.

Lemma SFleb_finite_pos (m1 m2 : positive) (e1 e2 : Z) :
  e1 < e2 ∨ (e1 = e2 ∧ Z.pos m1 ≤ Z.pos m2) →
  SFleb (S754_finite false m1 e1) (S754_finite false m2 e2) = true.
Proof.
  intros H. unfold SFleb, SFcompare.
  destruct (Z.compare_spec e1 e2) as [He|He|He]; [|done|lia].
  change (Pos.compare_cont Eq m1 m2) with (Pos.compare m1 m2).
  destruct (Pos.compare_spec m1 m2); [done..|lia].
Qed.

Lemma SFleb_finite_neg (m1 m2 : positive) (e1 e2 : Z) :
  e2 < e1 ∨ (e2 = e1 ∧ Z.pos m2 ≤ Z.pos m1) →
  SFleb (S754_finite true m1 e1) (S754_finite true m2 e2) = true.
Proof.
  intros H. unfold SFleb, SFcompare.
  destruct (Z.compare_spec e1 e2) as [He|He|He]; [|lia|done].
  change (Pos.compare_cont Eq m1 m2) with (Pos.compare m1 m2).
  destruct (Pos.compare_spec m1 m2); [done|lia|done].
Qed.

Lemma pack_above (mx : positive) (ex m e : Z) :
  0 < m → ex < e ∨ (ex = e ∧ Z.pos mx ≤ m) →
  SFleb (S754_finite false mx ex) (pack false m e) = true.
Proof.
  intros Hm H. destruct m as [|p|p]; try lia. cbn [pack].
  destruct (e <=? emax - prec); [by apply SFleb_finite_pos|done].
Qed.

Lemma pack_below (mx : positive) (ex m e : Z) :
  0 ≤ m → ex ≤ emax - prec → e ≤ ex → (e = ex → m ≤ Z.pos mx) →
  SFleb (S754_finite true mx ex) (pack true m e) = true.
Proof.
  intros Hm Hex He H. destruct m as [|p|p]; try lia; cbn [pack]; [done|].
  rewrite (Zle_imp_le_bool e (emax - prec)) by lia.
  apply SFleb_finite_neg. lia.
Qed.

(** Rounding a number that is at least a float of the format gives at
    least that float. *)
Lemma binary_round_above (mx : positive) (ex : Z) (P : positive) (e : Z) :
  fexp prec emax (Z.pos (digits2_pos mx) + ex) = ex →
  e ≤ ex →
  Z.pos mx * 2 ^ (ex - e) ≤ Z.pos P →
  SFleb (S754_finite false mx ex) (binary_round prec emax false P e) = true.
Proof.
  intros Hcan He HP. unfold binary_round.
  set (t := fexp prec emax (Z.pos (digits2_pos P) + e)).
  assert (Ht : ex ≤ t).
  { rewrite <- Hcan. apply fexp_mono.
    pose proof (scaled_le_digits (Z.pos mx) (Z.pos P) (ex - e) 0) as Hd.
    cbn [Zdigits2] in Hd. rewrite Z.pow_0_r, Z.mul_1_r in Hd. lia. }
  rewrite shl_align_ge by lia.
  destruct (binary_round_aux_spec false (Z.pos P) e loc_Exact ltac:(lia))
    as (m1' & Hb & ->).
  cbn [Zdigits2] in *. fold t in Hb |- *.
  replace (Z.max e t) with t in * by lia.
  set (m1 := Z.pos P / 2 ^ (t - e)) in *.
  set (e2 := Z.max t (fexp prec emax (Zdigits2 m1' + t))).
  assert (Hm1 : ex = t → Z.pos mx ≤ m1).
  { intros <-. unfold m1. apply Z.div_le_lower_bound; [apply Z.pow_pos_nonneg|]; lia. }
  assert (Hm1pos : 0 < m1).
  { destruct (decide (ex = t)) as [E|E]; [specialize (Hm1 E); lia|].
    assert (Ht' : t = Z.pos (digits2_pos P) + e - prec).
    { pose proof (fexp_ge_emin (Z.pos (digits2_pos mx) + ex)).
      unfold t, fexp in *. lia. }
    pose proof (div_pow2_lower (Z.pos P) (t - e) ltac:(lia)) as Hl.
    cbn [Zdigits2] in Hl.
    assert (0 < 2 ^ (Z.pos (digits2_pos P) - 1 - (t - e))); [|unfold m1, prec in *; lia].
    apply Z.pow_pos_nonneg; unfold prec in *; lia. }
  apply pack_above.
  - destruct (decide (e2 = t)) as [E|E].
    + rewrite E, Z.sub_diag, Z.div_1_r. lia.
    + assert (He2 : e2 = Zdigits2 m1' + t - prec).
      { pose proof (fexp_ge_emin (Z.pos (digits2_pos mx) + ex)).
        unfold e2, fexp in *. lia. }
      pose proof (div_pow2_lower m1' (e2 - t) ltac:(lia)) as Hl.
      assert (0 < 2 ^ (Zdigits2 m1' - 1 - (e2 - t))); [|unfold prec in *; lia].
      apply Z.pow_pos_nonneg; unfold prec in *; lia.
  - destruct (decide (ex = e2)) as [E|E]; [right|left; unfold e2; lia].
    split; [done|].
    assert (e2 = t) as -> by (unfold e2 in *; lia).
    rewrite Z.sub_diag, Z.div_1_r. specialize (Hm1 E). lia.
Qed.

(** Rounding a magnitude that is less than a float of the format gives
    at most that float. *)
Lemma binary_round_below (mx : positive) (ex : Z) (P : positive) (e : Z) :
  fexp prec emax (Z.pos (digits2_pos mx) + ex) = ex →
  ex ≤ emax - prec →
  e ≤ ex →
  Z.pos P < Z.pos mx * 2 ^ (ex - e) →
  SFleb (S754_finite true mx ex) (binary_round prec emax true P e) = true.
Proof.
  intros Hcan Hex He HP. unfold binary_round.
  set (t := fexp prec emax (Z.pos (digits2_pos P) + e)).
  assert (Ht : t ≤ ex).
  { rewrite <- Hcan. apply fexp_mono.
    pose proof (scaled_le_digits (Z.pos P) (Z.pos mx) 0 (ex - e)) as Hd.
    cbn [Zdigits2] in Hd. rewrite Z.pow_0_r, Z.mul_1_r in Hd. lia. }
  assert (Hal : ∃ Pz ez, shl_align P e t = (Pz, ez) ∧ ez = Z.min e t
                         ∧ Z.pos Pz = Z.pos P * 2 ^ (e - ez)).
  { destruct (Z_lt_le_dec t e) as [Hlt|Hge].
    - destruct (shl_align_lt P e t Hlt) as [H1 H2].
      destruct (shl_align P e t) as [Pz ez]. cbn [fst snd] in *.
      exists Pz, ez. repeat split; [lia|]. subst ez. done.
    - rewrite shl_align_ge by done. exists P, e.
      repeat split; [lia|]. rewrite Z.sub_diag. lia. }
  destruct Hal as (Pz & ez & -> & Hez & HPz).
  destruct (binary_round_aux_spec true (Z.pos Pz) ez loc_Exact ltac:(lia))
    as (m1' & Hb & ->).
  assert (Hdig : Zdigits2 (Z.pos Pz) + ez = Z.pos (digits2_pos P) + e).
  { pose proof (scaled_le_digits (Z.pos Pz) (Z.pos P) 0 (e - ez)) as H1.
    pose proof (scaled_le_digits (Z.pos P) (Z.pos Pz) (e - ez) 0) as H2.
    cbn [Zdigits2] in *. rewrite Z.pow_0_r, Z.mul_1_r in H1, H2. lia. }
  rewrite Hdig in *. fold t in Hb |- *.
  replace (Z.max ez t) with t in * by lia.
  set (m1 := Z.pos Pz / 2 ^ (t - ez)) in *.
  set (e2 := Z.max t (fexp prec emax (Zdigits2 m1' + t))).
  set (N := Z.pos mx * 2 ^ (ex - t)).
  assert (Hm1 : m1 + 1 ≤ N).
  { assert (m1 < N); [|lia]. unfold m1, N.
    apply Z.div_lt_upper_bound; [apply Z.pow_pos_nonneg; lia|].
    rewrite HPz.
    destruct (Z_lt_le_dec t e) as [Hlt|Hge].
    - replace ez with t in * by lia.
      rewrite Z.sub_diag, Z.pow_0_r, Z.mul_1_l.
      replace (ex - t) with ((ex - e) + (e - t)) by lia.
      rewrite Z.pow_add_r, Z.mul_assoc by lia.
      apply Z.mul_lt_mono_pos_r; [apply Z.pow_pos_nonneg; lia|done].
    - replace ez with e in * by lia.
      rewrite Z.sub_diag, Z.pow_0_r, Z.mul_1_r.
      rewrite (Z.mul_comm (2 ^ (t - e))), <- Z.mul_assoc, <- Z.pow_add_r by lia.
      replace (ex - t + (t - e)) with (ex - e) by lia. done. }
  assert (Hm1pos : 0 ≤ m1).
  { apply Z.div_pos; [lia|apply Z.pow_pos_nonneg; lia]. }
  assert (He2 : e2 ≤ ex).
  { destruct (decide (m1' = 0)) as [->|Hnz].
    - unfold e2, fexp, emin in *. cbn [Zdigits2]. lia.
    - pose proof (scaled_le_digits m1' (Z.pos mx) 0 (ex - t)) as Hd.
      cbn [Zdigits2] in Hd. rewrite Z.pow_0_r, Z.mul_1_r in Hd.
      fold N in Hd.
      assert (fexp prec emax (Zdigits2 m1' + t) ≤ ex); [|unfold e2; lia].
      rewrite <- Hcan. apply fexp_mono. lia. }
  apply pack_below; [apply Z.div_pos; [lia|apply Z.pow_pos_nonneg; lia]|done..|].
  intros E. rewrite E.
  transitivity (N / 2 ^ (ex - t)).
  - apply Z.div_le_mono; [apply Z.pow_pos_nonneg|]; lia.
  - unfold N. rewrite Z.div_mul; [lia|]. apply Z.pow_nonzero; lia.
Qed.

Lemma shl_align_fst (m : positive) (e e' : Z) :
  e' ≤ e → Z.pos (shl_align m e e').1 = Z.pos m * 2 ^ (e - e').
Proof.
  intros H. destruct (Z_lt_le_dec e' e) as [Hlt|Hge].
  - apply shl_align_lt. done.
  - rewrite shl_align_ge by done. replace e' with e by lia.
    rewrite Z.sub_diag. cbn [fst]. lia.
Qed.

Lemma SFleb_refl (x : spec_float) : above_neg_inf x → SFleb x x = true.
Proof.
  destruct x as [s|s| |s m e]; cbn; try done.
  - destruct s; done.
  - intros _. unfold SFleb, SFcompare.
    rewrite Z.compare_refl.
    change (Pos.compare_cont Eq m m) with (Pos.compare m m).
    rewrite Pos.compare_refl. destruct s; done.
Qed.

Lemma SFleb_above (x z : spec_float) :
  above_neg_inf x → SFleb x z = true → above_neg_inf z.
Proof.
  destruct x as [s|[]| |s m e], z as [s'|[]| |s' m' e']; cbn; try done.
  all: destruct s; done.
Qed.

(** Adding a number that is not negative to a float gives at least
    that float. *)
Lemma SFadd_nonneg_above (x y : spec_float) :
  valid_binary x = true → above_neg_inf x → signed false y →
  SFleb x (SFadd prec emax x y) = true.
Proof.
  intros Hv Hx Hy.
  destruct x as [sx|[]| |sx mx ex]; try done;
    destruct y as [sy|sy| |sy my ey]; cbn in Hy; try done; subst.
  - destruct sx, sy; done.
  - destruct sx; done.
  - destruct sx; done.
  - done.
  - apply (SFleb_refl (S754_finite sx mx ex)). done.
  - destruct sx; done.
  - cbn [SFadd]. cbn [valid_binary] in Hv. unfold bounded, canonical_mantissa in Hv.
    apply andb_prop in Hv as [Hcan Hex].
    apply Z.eqb_eq in Hcan. apply Z.leb_le in Hex.
    set (e := Z.min ex ey).
    pose proof (shl_align_fst mx ex e ltac:(lia)) as HX.
    pose proof (shl_align_fst my ey e ltac:(lia)) as HY.
    destruct (shl_align mx ex e) as [X' ?], (shl_align my ey e) as [Y' ?].
    cbn [fst snd] in *.
    destruct sx; cbn [cond_Zopp].
    + destruct (Z.opp (Z.pos X') + Z.pos Y') as [|P|P] eqn:HM;
        cbn [binary_normalize].
      * done.
      * pose proof (binary_round_signed false P e) as Hs.
        destruct (binary_round prec emax false P e) as [?|?| |? ? ?];
          cbn in Hs; subst; done.
      * apply binary_round_below; [done|done|lia|lia].
    + destruct (Z.pos X' + Z.pos Y') as [|P|P] eqn:HM; try lia.
      cbn [binary_normalize].
      apply binary_round_above; [done|lia|lia].
Qed.

End Binary64.

(** ** The accumulator *)

Import Binary64.

Lemma Prim2SF_neg_infinity : Prim2SF neg_infinity = S754_infinity true.
Proof. reflexivity. Qed.

Lemma Prim2SF_zero : Prim2SF 0 = S754_zero false.
Proof. reflexivity. Qed.

(** Being above minus infinity, as a test on floats. *)
Lemma ltb_neg_infinity (r : float) :
  (neg_infinity <? r)%float = true ↔ above_neg_inf (Prim2SF r).
Proof.
  rewrite ltb_spec, Prim2SF_neg_infinity.
  destruct (Prim2SF r) as [s|[]| |s m e]; cbn; split; done.
Qed.

Lemma add_nonneg_ge (r g : float) :
  above_neg_inf (Prim2SF r) → signed false (Prim2SF g) →
  (r <=? r + g)%float = true ∧ above_neg_inf (Prim2SF (r + g)).
Proof.
  intros Hr Hg.
  assert (H : SFleb (Prim2SF r) (Prim2SF (r + g)) = true).
  { rewrite add_spec. apply SFadd_nonneg_above; [apply Prim2SF_valid|done..]. }
  split; [by rewrite leb_spec|by eapply SFleb_above].
Qed.

(** The clamped gain is never negative, and is the gain itself when that
    is not negative. *)
Lemma clamp_not_negative (g : float) : (clamp g <? 0)%float = false.
Proof. unfold clamp. destruct (g <? 0)%float eqn:E; [reflexivity|exact E]. Qed.

Lemma clamp_signed (s : bool) (g : float) :
  signed s (Prim2SF g) → signed false (Prim2SF (clamp g)).
Proof.
  unfold clamp. rewrite ltb_spec, Prim2SF_zero.
  destruct (Prim2SF g) as [s'|[]| |[] m e] eqn:E; cbn; try done.
  all: rewrite E; done.
Qed.

Lemma clamp_id (g : float) : signed false (Prim2SF g) → clamp g = g.
Proof.
  unfold clamp. rewrite ltb_spec, Prim2SF_zero.
  destruct (Prim2SF g) as [s'|[]| |[] m e]; cbn; done.
Qed.

Lemma signed_opp (s : bool) (x : spec_float) :
  signed s x → signed (negb s) (SFopp x).
Proof. destruct x; cbn; try done. all: intros ->; done. Qed.

(** The float of an integer has the sign of the integer. *)
Lemma float_of_int_signed (n : Z) (fv : float) :
  float_of_int n = Some fv → signed (n <? 0) (Prim2SF fv).
Proof.
  unfold float_of_int. pose proof (binary_normalize_signed n 0) as Hs.
  destruct (binary_normalize prec emax n 0 false) as [[]| | |s m e];
    intros [= <-]; cbn in Hs; try done.
  subst s. cbn [SF2Prim].
  assert (Hf : signed false
                 (Prim2SF (Z.ldexp (of_uint63 (Uint63.of_Z (Z.pos m))) e))).
  { rewrite Z_ldexp_spec, of_uint63_spec.
    pose proof (binary_normalize_signed (Uint63.to_Z (Uint63.of_Z (Z.pos m))) 0) as H.
    rewrite (proj2 (Z.ltb_ge _ 0)) in H
      by apply Uint63.to_Z_bounded.
    destruct (binary_normalize _ _ _ _ _) as [?|?| |s' m' e']; cbn in *; try done.
    subst s'. apply binary_round_signed. }
  destruct (n <? 0).
  - rewrite opp_spec. by apply (signed_opp false).
  - done.
Qed.

Lemma mul_signed (s : bool) (a rate : float) (m : positive) (e : Z) :
  signed s (Prim2SF a) → Prim2SF rate = S754_finite false m e →
  signed s (Prim2SF (a * rate)).
Proof.
  intros Ha Hr. rewrite mul_spec, Hr. unfold SF64mul.
  destruct (Prim2SF a) as [s'|s'| |s' m' e']; cbn in *; try done.
  - subst s'. by rewrite xorb_false_r.
  - subst s'. rewrite xorb_false_r. apply binary_round_aux_signed. lia.
Qed.

(** Every yield rate is a positive number. *)
Lemma rate_positive (rt : string) (rate : float) :
  RESOURCE_PERCENTAGES !! rt = Some rate →
  ∃ m e, Prim2SF rate = S754_finite false m e.
Proof.
  unfold RESOURCE_PERCENTAGES. cbn [list_to_map foldr fst snd].
  intros H.
  repeat (apply lookup_insert_Some in H as [[<- <-]|[_ H]];
          [eexists _, _; reflexivity|]).
  by rewrite lookup_empty in H.
Qed.

(** The gain of a category is not negative when its count is not, and the
    gain added is never negative. *)
Lemma gain_signed (rt : string) (n : Z) (fv rate : float) :
  float_of_int n = Some fv → RESOURCE_PERCENTAGES !! rt = Some rate →
  signed (n <? 0) (Prim2SF (fv * rate)).
Proof.
  intros Hfv Hrate. destruct (rate_positive rt rate Hrate) as (m & e & Hm).
  eapply mul_signed; [by apply float_of_int_signed|done].
Qed.

Lemma update_resource_ticked (rt : string) (s : store) :
  match ticked_value s rt with
  | Some v =>
      ∃ t, update_resource rt s
           = (Ok tt, Store (<[rt := v]> (resources s)) (villagers s) t)
  | None => ∃ e, update_resource rt s = (Raised e, s)
  end.
Proof.
  rewrite update_resource_unfold. unfold ticked_value.
  destruct (villagers s !! rt) as [n|]; cbn; [|eauto].
  destruct (RESOURCE_PERCENTAGES !! rt) as [rate|]; cbn; [|eauto].
  destruct (float_of_int n) as [fv|]; cbn; [|eauto].
  destruct (resources s !! rt) as [old|]; cbn; eauto.
Qed.

Lemma ticked_value_ext (s s1 : store) (rt : string) :
  villagers s1 = villagers s → resources s1 !! rt = resources s !! rt →
  ticked_value s1 rt = ticked_value s rt.
Proof. intros Hv Hr. unfold ticked_value. rewrite Hv, Hr. done. Qed.

(** The accumulator loop over distinct categories: the allocation is kept,
    a category outside the list keeps its stockpile, and a category of the
    list either gets its gain or is not reached because of an exception. *)
Lemma for_each_update_resource (l : list string) (s : store) :
  NoDup l →
  let out := for_each update_resource l s in
  villagers out.2 = villagers s
  ∧ (∀ rt, rt ∉ l → resources out.2 !! rt = resources s !! rt)
  ∧ (∀ rt, rt ∈ l →
       (is_Some (ticked_value s rt) ∧ resources out.2 !! rt = ticked_value s rt)
       ∨ (out.1 ≠ Ok tt ∧ resources out.2 !! rt = resources s !! rt))
  ∧ ((∀ rt, rt ∈ l → is_Some (ticked_value s rt)) → out.1 = Ok tt).
Proof.
  intros Hnd. revert s. induction Hnd as [|x l Hx Hnd IH]; intros s out.
  { subst out. cbn. split; [done|]. split; [done|]. split; [|done].
    intros rt Hrt. by apply elem_of_nil in Hrt. }
  subst out. cbn [for_each]. rewrite bind_unfold.
  pose proof (update_resource_ticked x s) as Hup.
  destruct (ticked_value s x) as [v|] eqn:Hv.
  - destruct Hup as [t ->].
    set (s1 := Store (<[x := v]> (resources s)) (villagers s) t).
    destruct (IH s1) as (I1 & I2 & I3 & I4).
    assert (Hext : ∀ rt, rt ≠ x → ticked_value s1 rt = ticked_value s rt).
    { intros rt Hne. apply ticked_value_ext; [done|]. cbn. by rewrite lookup_insert_ne. }
    split; [|split; [|split]].
    + by rewrite I1.
    + intros rt Hrt. apply not_elem_of_cons in Hrt as [Hne Hrt].
      rewrite I2 by done. cbn. by rewrite lookup_insert_ne.
    + intros rt Hrt. apply elem_of_cons in Hrt as [->|Hrt].
      * left. split; [by rewrite Hv|]. rewrite I2 by done. cbn.
        by rewrite lookup_insert_eq.
      * assert (rt ≠ x) by (intros ->; done).
        destruct (I3 rt Hrt) as [[Hs Hr]|[Hr1 Hr2]].
        -- left. rewrite <- Hext by done. done.
        -- right. split; [done|]. rewrite Hr2. cbn. by rewrite lookup_insert_ne.
    + intros Hall. apply I4. intros rt Hrt.
      assert (rt ≠ x) by (intros ->; done).
      rewrite Hext by done. apply Hall. by right.
  - destruct Hup as [e ->]. cbn. split; [done|]. split; [done|]. split.
    + intros rt Hrt. right. done.
    + intros Hall. destruct (Hall x) as [? ?]; [by left|congruence].
Qed.

Lemma RESOURCE_TYPES_NoDup : NoDup RESOURCE_TYPES.
Proof. apply (bool_decide_unpack _). vm_compute. exact I. Qed.

Lemma game_tick_resources (s : store) :
  resources (game_tick s).2 = resources (update_resources s).2
  ∧ (game_tick s).1 = (update_resources s).1.
Proof.
  unfold game_tick. rewrite bind_unfold.
  destruct (update_resources s) as [[[]|e] s1]; done.
Qed.

(** A step of the process either keeps the ledger or is a tick. *)
Lemma step_resources (p : process) (ev : event) :
  resources (mem (step p ev)) = resources (mem p)
  ∨ resources (mem (step p ev)) = resources (update_resources (mem p)).2.
Proof.
  unfold step. destruct (alive p); cbn; [|by left].
  destruct ev as [line| |].
  - left. unfold after_command, handle_command.
    pose proof (handle_parts_effect (PyStr.split (PyStr.strip line)) (mem p)) as [H _].
    destruct (handle_parts _ (mem p)) as [[[]|e] s1]; cbn in *; [done|].
    destruct (is_Exception e); done.
  - destruct (ticking p); [|by left]. right.
    pose proof (game_tick_resources (mem p)) as [H _].
    destruct (game_tick (mem p)) as [[[]|e] s1]; cbn in *; done.
  - by left.
Qed.

(** One run of the accumulator loop never lowers a stockpile. *)
Lemma update_resources_monotone (s : store) (rt : string) (r : float) :
  resources s !! rt = Some r → (neg_infinity <? r)%float = true →
  ∃ r', resources (update_resources s).2 !! rt = Some r'
        ∧ (r <=? r')%float = true ∧ (neg_infinity <? r')%float = true.
Proof.
  intros Hr Habove.
  assert (Hsame : ∃ r', Some r = Some r'
                        ∧ (r <=? r')%float = true ∧ (neg_infinity <? r')%float = true).
  { exists r. split; [done|]. split; [|done].
    rewrite leb_spec. apply SFleb_refl. by apply ltb_neg_infinity. }
  destruct (for_each_update_resource RESOURCE_TYPES s RESOURCE_TYPES_NoDup)
    as (_ & H2 & H3 & _).
  fold update_resources in H2, H3.
  destruct (decide (rt ∈ RESOURCE_TYPES)) as [Hin|Hout].
  - destruct (H3 rt Hin) as [[[v Hv] ->]|[_ ->]]; [|by rewrite Hr].
    rewrite Hv. unfold ticked_value in Hv. rewrite Hr in Hv.
    destruct (villagers s !! rt) as [n|]; cbn in Hv; [|done].
    destruct (RESOURCE_PERCENTAGES !! rt) as [rate|] eqn:Hrate; cbn in Hv; [|done].
    destruct (float_of_int n) as [fv|] eqn:Hfv; cbn in Hv; [|done].
    injection Hv as <-.
    destruct (add_nonneg_ge r (clamp (fv * rate))) as [Hle Hab].
    + by apply ltb_neg_infinity.
    + eapply clamp_signed, gain_signed; done.
    + eexists. split; [done|]. split; [done|]. by apply ltb_neg_infinity.
  - rewrite H2 by done. by rewrite Hr.
Qed.

(** Every step of the process keeps stockpiles that hold a number. *)
Lemma step_monotone (p : process) (ev : event) (rt : string) (r : float) :
  resources (mem p) !! rt = Some r → (neg_infinity <? r)%float = true →
  ∃ r', resources (mem (step p ev)) !! rt = Some r'
        ∧ (r <=? r')%float = true ∧ (neg_infinity <? r')%float = true.
Proof.
  intros Hr Hab. destruct (step_resources p ev) as [->| ->].
  - exists r. split; [done|]. split; [|done].
    rewrite leb_spec. apply SFleb_refl. by apply ltb_neg_infinity.
  - by apply update_resources_monotone.
Qed.

(** From the initial state every stockpile exists and holds a number. *)
Lemma reachable_ledger (evs : list event) (rt : string) :
  rt ∈ RESOURCE_TYPES →
  ∃ r, resources (mem (run initial evs)) !! rt = Some r
       ∧ (neg_infinity <? r)%float = true.
Proof.
  intros Hrt. induction evs as [|ev evs (r & Hr & Hab)] using rev_ind.
  - change (run initial []) with initial. exists 0%float.
    unfold RESOURCE_TYPES in Hrt.
    repeat (apply elem_of_cons in Hrt as [->|Hrt]; [split; reflexivity|]).
    by apply elem_of_nil in Hrt.
  - rewrite run_snoc.
    destruct (step_monotone _ ev rt r Hr Hab) as (r' & ? & _ & ?). eauto.
Qed.

(** C5.  The gain the accumulator adds is never negative, a negative
    product being replaced by zero.  So a stockpile that holds a number
    (anything above minus infinity, which leaves out NaN) is at least as
    large after a tick as before, and still holds a number; the same goes
    for every step of the process, command or tick.  In the states reached
    from the initial state every stockpile holds a number, so there each
    of them is at least as large after the next event as before. *)
Theorem ledger_never_decreases :
  (∀ g : float, (clamp g <? 0)%float = false)
  ∧ (∀ (s : store) (rt : string) (r : float),
       resources s !! rt = Some r → (neg_infinity <? r)%float = true →
       ∃ r', resources (game_tick s).2 !! rt = Some r'
             ∧ (r <=? r')%float = true ∧ (neg_infinity <? r')%float = true)
  ∧ (∀ (p : process) (ev : event) (rt : string) (r : float),
       resources (mem p) !! rt = Some r → (neg_infinity <? r)%float = true →
       ∃ r', resources (mem (step p ev)) !! rt = Some r'
             ∧ (r <=? r')%float = true ∧ (neg_infinity <? r')%float = true)
  ∧ (∀ (evs : list event) (ev : event) (rt : string),
       rt ∈ RESOURCE_TYPES →
       ∃ r r', resources (mem (run initial evs)) !! rt = Some r
               ∧ resources (mem (run initial (evs ++ [ev]))) !! rt = Some r'
               ∧ (r <=? r')%float = true).
Proof.
  split; [exact clamp_not_negative|]. split; [|split].
  - intros s rt r Hr Hab.
    rewrite (proj1 (game_tick_resources s)).
    by apply update_resources_monotone.
  - exact step_monotone.
  - intros evs ev rt Hrt.
    destruct (reachable_ledger evs rt Hrt) as (r & Hr & Hab).
    rewrite run_snoc.
    destruct (step_monotone _ ev rt r Hr Hab) as (r' & ? & ? & _). eauto.
Qed.

Lemma ledger_never_decreases_witness :
  (∃ r', resources (game_tick sixty_on_gold).2 !! "gold" = Some r'
         ∧ (0 <=? r')%float = true ∧ (neg_infinity <? r')%float = true)
  ∧ (∃ r', resources (mem (step (Process sixty_on_gold true true) Tick)) !! "stone"
           = Some r'
           ∧ (0 <=? r')%float = true ∧ (neg_infinity <? r')%float = true)
  ∧ (∃ r r', resources (mem (run initial [Tick])) !! "wood" = Some r
             ∧ resources (mem (run initial ([Tick] ++ [Tick]))) !! "wood" = Some r'
             ∧ (r <=? r')%float = true).
Proof.
  split; [|split].
  - apply (proj1 (proj2 ledger_never_decreases) sixty_on_gold "gold" 0%float).
    + vm_compute. reflexivity.
    + vm_compute. reflexivity.
  - apply (proj1 (proj2 (proj2 ledger_never_decreases))
             (Process sixty_on_gold true true) Tick "stone" 0%float).
    + vm_compute. reflexivity.
    + vm_compute. reflexivity.
  - apply (proj2 (proj2 (proj2 ledger_never_decreases)) [Tick] Tick "wood").
    apply (bool_decide_unpack _). vm_compute. exact I.
Defined.

Lemma fit_to_tick_spec (s : store) :
  fit_to_tick s = true ↔
  ∀ rt, rt ∈ RESOURCE_TYPES →
    ∃ n fv r, villagers s !! rt = Some n ∧ 0 ≤ n
              ∧ float_of_int n = Some fv ∧ resources s !! rt = Some r.
Proof.
  unfold fit_to_tick. rewrite forallb_forall. split.
  - intros H rt Hrt. specialize (H rt (proj1 (list_elem_of_In _ _) Hrt)).
    destruct (villagers s !! rt) as [n|]; [|done].
    destruct (resources s !! rt) as [r|]; [|done].
    apply andb_prop in H as [Hn Hfv].
    destruct (float_of_int n) as [fv|] eqn:E; [|done].
    exists n, fv, r. split; [done|]. split; [lia|done].
  - intros H rt Hrt. destruct (H rt (proj2 (list_elem_of_In _ _) Hrt))
      as (n & fv & r & -> & Hn & -> & ->).
    rewrite andb_true_r. lia.
Qed.

Lemma rate_RESOURCE_TYPES (rt : string) :
  rt ∈ RESOURCE_TYPES ↔ is_Some (RESOURCE_PERCENTAGES !! rt).
Proof.
  unfold RESOURCE_PERCENTAGES, RESOURCE_TYPES. cbn [list_to_map foldr fst snd].
  rewrite !elem_of_cons, elem_of_nil.
  rewrite <- !elem_of_dom, !dom_insert, dom_empty.
  set_solver.
Qed.

(** The accumulator loop on a store fit to tick: no exception, and every
    category gets its product. *)
Lemma update_resources_fit (s : store) :
  fit_to_tick s = true →
  (update_resources s).1 = Ok tt
  ∧ villagers (update_resources s).2 = villagers s
  ∧ fit_to_tick (update_resources s).2 = true
  ∧ ∀ rt n fv rate r,
      villagers s !! rt = Some n → float_of_int n = Some fv →
      RESOURCE_PERCENTAGES !! rt = Some rate → resources s !! rt = Some r →
      resources (update_resources s).2 !! rt = Some (r + fv * rate)%float.
Proof.
  intros Hfit. pose proof (proj1 (fit_to_tick_spec s) Hfit) as Hs.
  destruct (for_each_update_resource RESOURCE_TYPES s RESOURCE_TYPES_NoDup)
    as (H1 & H2 & H3 & H4).
  fold update_resources in H1, H2, H3, H4.
  assert (Hsome : ∀ rt, rt ∈ RESOURCE_TYPES → is_Some (ticked_value s rt)).
  { intros rt Hrt. destruct (Hs rt Hrt) as (n & fv & r & Hn & _ & Hfv & Hr).
    destruct (proj1 (rate_RESOURCE_TYPES rt) Hrt) as [rate Hrate].
    unfold ticked_value. rewrite Hn, Hrate. cbn. rewrite Hfv. cbn. rewrite Hr. done. }
  specialize (H4 Hsome).
  assert (Hnew : ∀ rt, rt ∈ RESOURCE_TYPES →
                   resources (update_resources s).2 !! rt = ticked_value s rt).
  { intros rt Hrt. destruct (H3 rt Hrt) as [[_ H]|[H _]]; done. }
  split; [done|]. split; [done|]. split.
  - apply fit_to_tick_spec. intros rt Hrt.
    destruct (Hs rt Hrt) as (n & fv & r & Hn & Hpos & Hfv & Hr).
    destruct (Hsome rt Hrt) as [v Hv].
    exists n, fv, v. rewrite H1, Hnew, Hv by done. done.
  - intros rt n fv rate r Hn Hfv Hrate Hr.
    assert (Hrt : rt ∈ RESOURCE_TYPES) by (apply rate_RESOURCE_TYPES; eauto).
    destruct (Hs rt Hrt) as (n' & fv' & r' & Hn' & Hpos & _).
    assert (n' = n) as -> by congruence.
    rewrite Hnew by done. unfold ticked_value.
    rewrite Hn, Hrate. cbn. rewrite Hfv. cbn. rewrite Hr. cbn.
    rewrite clamp_id; [done|].
    pose proof (gain_signed rt n fv rate Hfv Hrate) as Hg.
    by rewrite (proj2 (Z.ltb_ge n 0)) in Hg.
Qed.

Lemma step_tick_fit (s : store) :
  fit_to_tick s = true →
  step (Process s true true) Tick = Process (game_tick s).2 true true
  ∧ fit_to_tick (game_tick s).2 = true
  ∧ villagers (game_tick s).2 = villagers s.
Proof.
  intros Hfit. destruct (update_resources_fit s Hfit) as (Hok & Hv & Hf & _).
  pose proof (game_tick_resources s) as [Hr He].
  pose proof (game_tick_villagers s) as Hgv.
  split; [|split; [|done]].
  - unfold step. cbn [alive ticking mem negb].
    rewrite Hok in He.
    destruct (game_tick s) as [[[]|e] s1]; cbn in *; done.
  - apply fit_to_tick_spec. intros rt Hrt.
    destruct (proj1 (fit_to_tick_spec _) Hf rt Hrt) as (n & fv & r & ?).
    exists n, fv, r. rewrite Hgv, Hr, <- Hv. done.
Qed.

Lemma run_ticks_succ (p : process) (N : nat) :
  run p (repeat Tick (S N)) = step (run p (repeat Tick N)) Tick.
Proof.
  change (repeat Tick (S N)) with (Tick :: repeat Tick N).
  rewrite repeat_cons. apply run_snoc.
Qed.

(** On a store fit to tick the game thread never dies: the state after
    one more tick is [game_tick] of the state before. *)
Lemma after_ticks_fit (N : nat) (s : store) :
  fit_to_tick s = true →
  run (Process s true true) (repeat Tick N) = Process (after_ticks N s) true true
  ∧ fit_to_tick (after_ticks N s) = true
  ∧ villagers (after_ticks N s) = villagers s
  ∧ after_ticks (S N) s = (game_tick (after_ticks N s)).2.
Proof.
  intros Hfit.
  assert (H : run (Process s true true) (repeat Tick N)
              = Process (after_ticks N s) true true
              ∧ fit_to_tick (after_ticks N s) = true
              ∧ villagers (after_ticks N s) = villagers s).
  { induction N as [|N (IH1 & IH2 & IH3)]; [done|].
    destruct (step_tick_fit _ IH2) as (E1 & E2 & E3).
    unfold after_ticks in *. rewrite run_ticks_succ, IH1, E1. cbn [mem].
    split; [done|]. split; [done|]. congruence. }
  destruct H as (H1 & H2 & H3). split; [done|]. split; [done|]. split; [done|].
  destruct (step_tick_fit _ H2) as (E1 & _).
  unfold after_ticks at 1. rewrite run_ticks_succ, H1, E1. done.
Qed.

(** C4.  On a store whose records have the four categories, with counts
    that are non-negative integers, every tick adds to the stockpile of a
    category the float product of its count and its rate, by a float
    addition: the same gain at every tick, whatever the number of ticks
    before.  From the initial state, [get gold with 10 villagers] gives
    the allocation with ten on gold and none elsewhere, and one tick then
    brings the gold stockpile from 0 to [10 * 0.00004], which is the
    float [0.0004]. *)
Theorem tick_adds_product :
  (∀ (s : store) (N : nat) (rt : string) (n : Z) (fv rate : float),
     fit_to_tick s = true →
     villagers s !! rt = Some n → float_of_int n = Some fv →
     RESOURCE_PERCENTAGES !! rt = Some rate →
     villagers (after_ticks N s) = villagers s
     ∧ ∃ r, resources (after_ticks N s) !! rt = Some r
            ∧ resources (after_ticks (S N) s) !! rt = Some (r + fv * rate)%float)
  ∧ (villagers (handle_command "get gold with 10 villagers" initial_store).2
     = list_to_map [("gold", 10); ("stone", 0); ("wood", 0); ("food", 0)]
     ∧ resources (after_ticks 1 (handle_command "get gold with 10 villagers" initial_store).2)
         !! "gold" = Some 0.0004%float
     ∧ (10 * 0.00004 = 0.0004)%float
     ∧ RESOURCE_PERCENTAGES !! "gold" = Some 0.00004%float).
Proof.
  split.
  - intros s N rt n fv rate Hfit Hn Hfv Hrate.
    destruct (after_ticks_fit N s Hfit) as (_ & HfitN & HvN & HrN).
    split; [done|].
    assert (Hrt : rt ∈ RESOURCE_TYPES) by (apply rate_RESOURCE_TYPES; eauto).
    destruct (proj1 (fit_to_tick_spec _) HfitN rt Hrt) as (n' & fv' & r & Hn' & _ & _ & Hr).
    exists r. split; [done|].
    rewrite HrN, (proj1 (game_tick_resources _)).
    destruct (update_resources_fit _ HfitN) as (_ & _ & _ & Hnew).
    apply (Hnew rt n fv rate r); [by rewrite HvN|done..].
  - repeat split; vm_compute; reflexivity.
Qed.

Lemma tick_adds_product_witness :
  villagers (after_ticks 2 sixty_on_gold) = villagers sixty_on_gold
  ∧ ∃ r, resources (after_ticks 2 sixty_on_gold) !! "gold" = Some r
         ∧ resources (after_ticks 3 sixty_on_gold) !! "gold"
           = Some (r + 60 * 0.00004)%float.
Proof.
  apply (proj1 tick_adds_product sixty_on_gold 2%nat "gold" 60 60%float 0.00004%float).
  - vm_compute. reflexivity.
  - vm_compute. reflexivity.
  - vm_compute. reflexivity.
  - vm_compute. reflexivity.
Defined.

(** * Further properties of the code *)

(** ** Reading a line *)

Lemma split_from_blank (cur s : string) :
  blank s = true → PyStr.split_from cur s = PyStr.flush cur [].
Proof.
  revert cur. induction s as [|c s IH]; intros cur Hb; [done|].
  cbn in *. apply andb_prop in Hb as [-> Hb].
  rewrite (IH EmptyString Hb). done.
Qed.

Lemma split_from_app_blank (cur s t : string) :
  blank t = true → PyStr.split_from cur (s ++ t) = PyStr.split_from cur s.
Proof.
  intros Hb. revert cur. induction s as [|c s IH]; intros cur.
  - by apply split_from_blank.
  - change (String c s ++ t) with (String c (s ++ t)).
    cbn [PyStr.split_from]. destruct (PyStr.is_space c); by rewrite IH.
Qed.

Lemma split_lstrip (s : string) :
  PyStr.split (PyStr.lstrip s) = PyStr.split s.
Proof.
  unfold PyStr.split. induction s as [|c s IH]; [done|].
  cbn. destruct (PyStr.is_space c) eqn:E; [done|].
  cbn. by rewrite E.
Qed.

Lemma string_app_assoc (a b c : string) : (a ++ b) ++ c = a ++ (b ++ c).
Proof.
  induction a as [|x a IH]; [done|].
  change (String x ((a ++ b) ++ c) = String x (a ++ (b ++ c))). by rewrite IH.
Qed.

Lemma string_app_nil_r (a : string) : a ++ EmptyString = a.
Proof.
  induction a as [|x a IH]; [done|].
  change (String x (a ++ EmptyString) = String x a). by rewrite IH.
Qed.

Lemma rev_append_app (s acc : string) :
  PyStr.rev_append s acc = PyStr.rev_append s EmptyString ++ acc.
Proof.
  revert acc. induction s as [|c s IH]; intros acc; [done|].
  cbn [PyStr.rev_append].
  rewrite (IH (String c acc)), (IH (String c EmptyString)).
  rewrite string_app_assoc. done.
Qed.

Lemma rev_append_snoc (s t : string) :
  PyStr.rev_append (s ++ t) EmptyString
  = PyStr.rev_append t EmptyString ++ PyStr.rev_append s EmptyString.
Proof.
  induction s as [|c s IH].
  - change (EmptyString ++ t) with t. cbn [PyStr.rev_append].
    by rewrite string_app_nil_r.
  - change (String c s ++ t) with (String c (s ++ t)).
    cbn [PyStr.rev_append].
    rewrite rev_append_app, IH, (rev_append_app s (String c EmptyString)).
    by rewrite string_app_assoc.
Qed.

Lemma rev_append_involutive (s : string) :
  PyStr.rev_append (PyStr.rev_append s EmptyString) EmptyString = s.
Proof.
  induction s as [|c s IH]; [done|].
  cbn [PyStr.rev_append].
  rewrite (rev_append_app s (String c EmptyString)), rev_append_snoc, IH. done.
Qed.

Lemma blank_app (s t : string) : blank (s ++ t) = blank s && blank t.
Proof.
  induction s as [|c s IH]; [done|].
  change (String c s ++ t) with (String c (s ++ t)).
  cbn [blank]. by rewrite IH, andb_assoc.
Qed.

Lemma blank_rev (s : string) :
  blank (PyStr.rev_append s EmptyString) = blank s.
Proof.
  induction s as [|c s IH]; [done|].
  cbn [PyStr.rev_append].
  rewrite (rev_append_app s (String c EmptyString)), blank_app, IH.
  cbn [blank]. rewrite andb_true_r. apply andb_comm.
Qed.

(** What [lstrip] removes is a run of blanks. *)
Lemma lstrip_decompose (s : string) :
  ∃ t, blank t = true ∧ s = t ++ PyStr.lstrip s.
Proof.
  induction s as [|c s (t & Ht & IH)]; [by exists EmptyString|].
  cbn [PyStr.lstrip]. destruct (PyStr.is_space c) eqn:E.
  - exists (String c t). cbn [blank]. rewrite E, Ht. split; [done|].
    change (String c t ++ PyStr.lstrip s) with (String c (t ++ PyStr.lstrip s)).
    by rewrite <- IH.
  - by exists EmptyString.
Qed.

Lemma split_strip (s : string) : PyStr.split (PyStr.strip s) = PyStr.split s.
Proof.
  unfold PyStr.strip. rewrite <- (split_lstrip s).
  set (u := PyStr.lstrip s).
  destruct (lstrip_decompose (PyStr.rev_append u EmptyString)) as (t & Ht & Hu).
  set (v := PyStr.lstrip (PyStr.rev_append u EmptyString)) in *.
  assert (E : u = PyStr.rev_append v EmptyString ++ PyStr.rev_append t EmptyString).
  { rewrite <- (rev_append_involutive u), Hu. apply rev_append_snoc. }
  clearbody v. clearbody u. rewrite E. unfold PyStr.split.
  rewrite split_from_app_blank; [done|]. by rewrite blank_rev.
Qed.

(** X1.  A line of blanks is ignored: nothing is logged, nothing is
    changed, nothing is raised, and the input loop goes on. *)
Theorem blank_line_ignored (line : string) (s : store) (p : process) :
  blank line = true →
  handle_command line s = (Ok tt, s)
  ∧ (alive p = true → step p (Command line) = Process (mem p) true (ticking p)).
Proof.
  intros Hb.
  assert (H : ∀ s0, handle_command line s0 = (Ok tt, s0)).
  { intros s0. unfold handle_command, PyStr.split.
    rewrite split_from_blank by done. reflexivity. }
  split; [apply H|]. intros Ha. unfold step. rewrite Ha. cbn [negb].
  unfold handle_command. rewrite split_strip.
  fold (handle_command line (mem p)). rewrite H. reflexivity.
Qed.

Lemma blank_line_ignored_witness :
  handle_command "   " initial_store = (Ok tt, initial_store)
  ∧ (alive initial = true → step initial (Command "   ") = Process (mem initial) true (ticking initial)).
Proof.
  apply (blank_line_ignored "   " initial_store initial). reflexivity.
Defined.

(** X2.  The [strip] that [main] applies to a line changes nothing:
    [handle_command] splits on blanks, so leading and trailing blanks never
    reach it. *)
Theorem strip_before_split_redundant (line : string) (s : store) :
  PyStr.split (PyStr.strip line) = PyStr.split line
  ∧ handle_command (PyStr.strip line) s = handle_command line s.
Proof.
  split; [apply split_strip|]. unfold handle_command. by rewrite split_strip.
Qed.

(** ** More on the command interpreter *)

(** X3.  A [get] that passes every check sets the count of its category
    and of no other, saves the new allocation once, logs the confirmation,
    and moves the total by the difference of the two counts. *)
Theorem get_success
    (a r t3 n : string) (rest : list string) (s : store) (num old : Z) :
  PyStr.lower a = "get" →
  PyStr.py_int n = Some num →
  PyStr.lower r ∈ RESOURCE_TYPES →
  villagers s !! PyStr.lower r = Some old →
  sum_values (villagers s) - old + num ≤ TOTAL_VILLAGERS →
  handle_parts (a :: r :: t3 :: n :: rest) s =
    (Ok tt,
     Store (resources s) (<[PyStr.lower r := num]> (villagers s))
       (trace s ++
          [SaveVillagers (<[PyStr.lower r := num]> (villagers s));
           Log (Text ("Set " ++ PyStr.str num ++ " villagers to "
                        ++ PyStr.lower r ++ "."))]))
  ∧ (∀ rt, rt ≠ PyStr.lower r →
       <[PyStr.lower r := num]> (villagers s) !! rt = villagers s !! rt)
  ∧ sum_values (<[PyStr.lower r := num]> (villagers s))
    = sum_values (villagers s) - old + num.
Proof.
  intros Ha Hn Hr Hold Hle. split; [|split].
  - rewrite handle_parts_get by done.
    rewrite (handle_get_parsed _ _ _ _ _ num) by done.
    rewrite bool_decide_eq_true_2 by done.
    rewrite Hold, bool_decide_eq_false_2 by lia.
    reflexivity.
  - intros rt Hne. by rewrite lookup_insert_ne.
  - by apply sum_values_insert.
Qed.

Lemma get_success_witness :
  handle_parts ["get"; "Wood"; "with"; "40"; "villagers"] sixty_on_gold =
    (Ok tt,
     Store (resources sixty_on_gold) (<["wood" := 40]> (villagers sixty_on_gold))
       (trace sixty_on_gold ++
          [SaveVillagers (<["wood" := 40]> (villagers sixty_on_gold));
           Log (Text "Set 40 villagers to wood.")]))
  ∧ (∀ rt, rt ≠ "wood" →
       <["wood" := 40]> (villagers sixty_on_gold) !! rt = villagers sixty_on_gold !! rt)
  ∧ sum_values (<["wood" := 40]> (villagers sixty_on_gold))
    = sum_values (villagers sixty_on_gold) - 0 + 40.
Proof.
  apply (get_success "get" "Wood" "with" "40" ["villagers"] sixty_on_gold 40 0).
  - reflexivity.
  - reflexivity.
  - apply (bool_decide_unpack _). vm_compute. exact I.
  - reflexivity.
  - vm_compute. discriminate.
Defined.

(** X4.  The keyword and the resource name are read in lower case only:
    two commands that differ in the case of their first two tokens do the
    same. *)
Theorem command_case_insensitive
    (a a' r r' : string) (rest : list string) (s : store) :
  PyStr.lower a = PyStr.lower a' →
  PyStr.lower r = PyStr.lower r' →
  handle_parts (a :: r :: rest) s = handle_parts (a' :: r' :: rest) s.
Proof.
  intros Ha Hr. unfold handle_parts. rewrite <- Ha.
  case_bool_decide; [|reflexivity].
  unfold handle_get.
  destruct rest as [|t3 [|n rest]].
  - reflexivity.
  - rewrite !bool_decide_eq_false_2 by (simpl; lia). reflexivity.
  - rewrite !bool_decide_eq_false_2 by (simpl; lia).
    run_m. rewrite Hr. reflexivity.
Qed.

Lemma command_case_insensitive_witness :
  handle_parts ["GET"; "Gold"; "with"; "10"] initial_store
  = handle_parts ["get"; "gold"; "with"; "10"] initial_store.
Proof.
  apply (command_case_insensitive "GET" "get" "Gold" "gold" ["with"; "10"] initial_store);
    reflexivity.
Defined.

(** X5.  When the allocation lacks the category named by a valid [get]
    (the file held a record without it), reading the current count raises
    [KeyError]: nothing is changed, saved or logged by [handle_command], and
    the input loop of [main] reports the error and ends. *)
Theorem get_missing_category
    (a r t3 n : string) (rest : list string) (s : store) (num : Z) (p : process) :
  PyStr.lower a = "get" →
  PyStr.py_int n = Some num →
  PyStr.lower r ∈ RESOURCE_TYPES →
  villagers s !! PyStr.lower r = None →
  handle_parts (a :: r :: t3 :: n :: rest) s = (Raised (KeyError (PyStr.lower r)), s)
  ∧ after_command p (handle_parts (a :: r :: t3 :: n :: rest) s) =
      Process (with_trace s
                 [Log (Text ("An unexpected error occurred: '" ++ PyStr.lower r ++ "'"));
                  Log (Text "Game exited due to error.")])
              false (ticking p).
Proof.
  intros Ha Hn Hr Hnone.
  assert (E : handle_parts (a :: r :: t3 :: n :: rest) s
              = (Raised (KeyError (PyStr.lower r)), s)).
  { rewrite handle_parts_get by done.
    rewrite (handle_get_parsed _ _ _ _ _ num) by done.
    rewrite bool_decide_eq_true_2 by done. by rewrite Hnone. }
  split; [exact E|]. rewrite E. reflexivity.
Qed.

(** An allocation without the food category. *)
Lemma get_missing_category_witness :
  handle_parts ["get"; "food"; "with"; "1"; "villager"]
    (Store default_resources (delete "food" default_villagers) [])
  = (Raised (KeyError "food"),
     Store default_resources (delete "food" default_villagers) [])
  ∧ after_command initial
      (handle_parts ["get"; "food"; "with"; "1"; "villager"]
         (Store default_resources (delete "food" default_villagers) [])) =
      Process (with_trace (Store default_resources (delete "food" default_villagers) [])
                 [Log (Text "An unexpected error occurred: 'food'");
                  Log (Text "Game exited due to error.")])
              false (ticking initial).
Proof.
  apply (get_missing_category "get" "food" "with" "1" ["villager"]
           (Store default_resources (delete "food" default_villagers) []) 1 initial).
  - reflexivity.
  - reflexivity.
  - apply (bool_decide_unpack _). vm_compute. exact I.
  - vm_compute. reflexivity.
Defined.

(** The allocation after a command depends on the command and on the
    allocation before it, and on nothing else in the store. *)
Lemma handle_parts_allocation (parts : list string) (s : store) :
  villagers (handle_parts parts s).2 = allocation_after parts (villagers s).
Proof.
  destruct parts as [|a rest]; [done|].
  unfold handle_parts, allocation_after.
  case_bool_decide as Ha.
  - destruct rest as [|r [|t3 [|n rest]]]; try done.
    destruct (PyStr.py_int n) as [num|] eqn:Hn.
    + rewrite (handle_get_parsed _ _ _ _ _ num) by done.
      destruct (villagers s !! PyStr.lower r) as [old|] eqn:Hold;
        repeat case_bool_decide; done.
    + rewrite handle_get_unparsed by done. done.
  - destruct rest as [|r [|t3 [|n rest]]]; repeat case_bool_decide; done.
Qed.

(** X6.  Giving the same command twice leaves the allocation the first
    one left: a [get] that succeeded succeeds again with the same count, a
    command that was refused is refused again. *)
Theorem command_idempotent_on_allocation (parts : list string) (s : store) :
  villagers (handle_parts parts (handle_parts parts s).2).2
  = villagers (handle_parts parts s).2.
Proof.
  rewrite !handle_parts_allocation.
  generalize (villagers s). intros v.
  unfold allocation_after.
  destruct parts as [|a [|r [|t3 [|n rest]]]]; try done.
  case_bool_decide as Ha; [|done].
  destruct (PyStr.py_int n) as [num|] eqn:Hn; [|done].
  destruct (v !! PyStr.lower r) as [old|] eqn:Hold; [|by rewrite Hold].
  case_bool_decide as Hr; cbn [andb]; [|by rewrite Hold].
  case_bool_decide as Hover; cbn [negb];
    [by rewrite Hold, bool_decide_eq_true_2|].
  rewrite lookup_insert_eq.
  rewrite (sum_values_insert v _ old) by done.
  rewrite bool_decide_eq_false_2 by lia. cbn [negb].
  by rewrite insert_insert_eq.
Qed.

(** X7.  [exit] logs the farewell and raises [SystemExit(0)] with both
    records as they were; [main] lets that exception through, so no error
    is reported.  Once the process is over (after [exit], an interrupt or
    an unexpected exception) no event changes it any more. *)
Theorem exit_ends_process (a : string) (rest : list string) (p : process)
    (evs : list event) :
  PyStr.lower a = "exit" →
  handle_parts (a :: rest) (mem p)
  = (Raised (SystemExit 0), with_trace (mem p) [Log (Text "Exiting game.")])
  ∧ after_command p (handle_parts (a :: rest) (mem p))
    = Process (with_trace (mem p) [Log (Text "Exiting game.")]) false (ticking p)
  ∧ (alive p = false → run p evs = p).
Proof.
  intros Ha.
  assert (E : handle_parts (a :: rest) (mem p)
              = (Raised (SystemExit 0), with_trace (mem p) [Log (Text "Exiting game.")])).
  { unfold handle_parts. rewrite Ha.
    rewrite !bool_decide_eq_false_2 by discriminate.
    rewrite bool_decide_eq_true_2 by reflexivity.
    unfold handle_exit. run_m. reflexivity. }
  split; [exact E|]. split; [rewrite E; reflexivity|].
  intros Hdead. induction evs as [|ev evs IH] using rev_ind; [done|].
  rewrite run_snoc, IH. unfold step. by rewrite Hdead.
Qed.

Lemma exit_ends_process_witness :
  handle_parts ["EXIT"] (mem initial)
  = (Raised (SystemExit 0), with_trace (mem initial) [Log (Text "Exiting game.")])
  ∧ after_command initial (handle_parts ["EXIT"] (mem initial))
    = Process (with_trace (mem initial) [Log (Text "Exiting game.")]) false (ticking initial)
  ∧ (alive initial = false → run initial [Tick] = initial).
Proof.
  apply (exit_ends_process "EXIT" [] initial [Tick]). reflexivity.
Defined.

(** ** What each thread writes, and what reaches the files *)

Lemma saved_villagers_app (v : gmap string Z) (t l : list effect) :
  saved_villagers v (t ++ l) = saved_villagers (saved_villagers v t) l.
Proof. unfold saved_villagers. apply fold_left_app. Qed.

Lemma saved_resources_app (r : gmap string float) (t l : list effect) :
  saved_resources r (t ++ l) = saved_resources (saved_resources r t) l.
Proof. unfold saved_resources. apply fold_left_app. Qed.

Lemma saved_only_logs (l : list effect) :
  Forall is_Log l →
  (∀ v, saved_villagers v l = v) ∧ (∀ r, saved_resources r l = r).
Proof.
  induction 1 as [|e l He _ [IH1 IH2]]; [done|].
  destruct e; done.
Qed.

(** The effects of one command: it logs, and saves the allocation exactly
    when it has changed it. *)
Lemma handle_parts_trace (parts : list string) (s : store) :
  ∃ l, (handle_parts parts s).2
       = Store (resources s) (allocation_after parts (villagers s)) (trace s ++ l)
       ∧ (Forall is_Log l ∧ allocation_after parts (villagers s) = villagers s
          ∨ ∃ m, l = [SaveVillagers (allocation_after parts (villagers s)); Log m]).
Proof.
  assert (Hnil : ∃ l, s = Store (resources s) (villagers s) (trace s ++ l)
                      ∧ (Forall is_Log l ∧ villagers s = villagers s
                         ∨ ∃ m, l = [SaveVillagers (villagers s); Log m])).
  { exists []. rewrite app_nil_r. destruct s. split; [done|]. left. done. }
  assert (Hlog : ∀ m, ∃ l, with_trace s [Log m]
                      = Store (resources s) (villagers s) (trace s ++ l)
                      ∧ (Forall is_Log l ∧ villagers s = villagers s
                         ∨ ∃ m, l = [SaveVillagers (villagers s); Log m])).
  { intros m. exists [Log m]. split; [done|]. left. split; [|done].
    repeat constructor. }
  destruct parts as [|a rest]; [exact Hnil|].
  unfold handle_parts, allocation_after.
  case_bool_decide as Ha.
  - destruct rest as [|r [|t3 [|n rest]]];
      [apply Hlog|apply Hlog|exact Hnil|].
    destruct (PyStr.py_int n) as [num|] eqn:Hn.
    + rewrite (handle_get_parsed _ _ _ _ _ num) by done.
      case_bool_decide as Hr; cbn [andb].
      * destruct (villagers s !! PyStr.lower r) as [old|] eqn:Hold; [|exact Hnil].
        case_bool_decide as Hover; cbn [negb]; [apply Hlog|].
        eexists. split; [reflexivity|]. right. eauto.
      * destruct (villagers s !! PyStr.lower r); apply Hlog.
    + rewrite handle_get_unparsed by done. apply Hlog.
  - replace (match rest with
             | [] => villagers s
             | r :: l => match l with
                         | [] => villagers s
                         | _ :: l0 => match l0 with
                                      | [] => villagers s
                                      | _ :: _ => villagers s
                                      end
                         end
             end) with (villagers s) by (by destruct rest as [|? [|? [|? ?]]]).
    repeat case_bool_decide.
    + unfold handle_status. run_m. eexists. split; [by rewrite <- !app_assoc|].
      left. split; [repeat constructor|done].
    + unfold handle_help. run_m. eexists. split; [by rewrite <- !app_assoc|].
      left. split; [repeat constructor|done].
    + unfold handle_exit. run_m. apply Hlog.
    + apply Hlog.
Qed.

Lemma update_resource_trace (rt : string) (s : store) :
  ∃ l, trace (update_resource rt s).2 = (trace s ++ l)%list ∧ Forall is_Log l.
Proof.
  rewrite update_resource_unfold.
  assert (Hnil : ∃ l, trace s = (trace s ++ l)%list ∧ Forall is_Log l).
  { exists []. by rewrite app_nil_r. }
  repeat case_match; try exact Hnil.
  eexists. split; [reflexivity|]. repeat constructor.
Qed.

Lemma for_each_update_trace (l0 : list string) (s : store) :
  ∃ l, trace (for_each update_resource l0 s).2 = (trace s ++ l)%list ∧ Forall is_Log l.
Proof.
  revert s. induction l0 as [|x l0 IH]; intros s.
  { exists []. by rewrite app_nil_r. }
  cbn [for_each]. rewrite bind_unfold.
  destruct (update_resource_trace x s) as (l1 & E1 & H1).
  destruct (update_resource x s) as [[[]|e] s1]; cbn [snd] in *.
  - destruct (IH s1) as (l2 & E2 & H2).
    exists (l1 ++ l2)%list. rewrite E2, E1, app_assoc. split; [done|].
    by apply Forall_app.
  - eauto.
Qed.

(** The effects of one turn of the game loop: log entries, then one save
    of the ledger as it is, unless the update raised. *)
Lemma game_tick_trace (s : store) :
  ∃ l, Forall is_Log l ∧
    match (game_tick s).1 with
    | Ok _ => trace (game_tick s).2
              = (trace s ++ l ++ [SaveResources (resources (game_tick s).2)])%list
    | Raised _ => trace (game_tick s).2 = (trace s ++ l)%list
    end.
Proof.
  unfold game_tick. rewrite bind_unfold.
  destruct (for_each_update_trace RESOURCE_TYPES s) as (l & E & H).
  fold update_resources in E.
  destruct (update_resources s) as [[[]|e] s1]; cbn [fst snd] in *.
  - exists l. split; [done|]. unfold save_resources. run_m.
    rewrite E, <- app_assoc. done.
  - exists l. done.
Qed.

Lemma ticking_step (p : process) (ev : event) :
  ticking (step p ev) = true → ticking p = true.
Proof.
  unfold step. destruct (alive p); cbn [negb]; [|done].
  destruct ev as [line| |]; cbn.
  - unfold after_command.
    destruct (handle_command (PyStr.strip line) (mem p)) as [[[]|e] s1]; [done|].
    destruct (is_Exception e); done.
  - destruct (ticking p) eqn:E; [done|]. by rewrite E.
  - done.
Qed.

Lemma allocation_after_dom (parts : list string) (v : gmap string Z) :
  dom (allocation_after parts v) = dom v.
Proof.
  unfold allocation_after.
  destruct parts as [|a [|r [|t3 [|n rest]]]]; try done.
  case_bool_decide; [|done].
  destruct (PyStr.py_int n) as [num|]; [|done].
  destruct (v !! PyStr.lower r) as [old|] eqn:Hold; [|done].
  destruct (_ && _); [|done].
  rewrite dom_insert_L.
  assert (Hin : PyStr.lower r ∈ dom v) by (apply elem_of_dom; eauto).
  apply set_eq. intros k. rewrite elem_of_union, elem_of_singleton.
  split; [intros [->|?]; done|by right].
Qed.

Lemma step_command_resources (p : process) (line : string) :
  resources (mem (step p (Command line))) = resources (mem p).
Proof.
  unfold step. destruct (alive p); cbn [negb]; [|done].
  unfold after_command, handle_command.
  pose proof (handle_parts_effect (PyStr.split (PyStr.strip line)) (mem p)) as [H1 _].
  destruct (handle_parts _ (mem p)) as [[[]|e] s1]; cbn in *; [done|].
  destruct (is_Exception e); done.
Qed.

Lemma step_tick_villagers (p : process) :
  villagers (mem (step p Tick)) = villagers (mem p).
Proof. destruct (step_villagers p Tick) as [H|(l & H & _)]; done. Qed.

Lemma step_interrupt_frame (p : process) :
  resources (mem (step p Interrupt)) = resources (mem p)
  ∧ villagers (mem (step p Interrupt)) = villagers (mem p).
Proof. unfold step. destruct (alive p); done. Qed.

Lemma update_resources_dom (s : store) :
  dom (resources (update_resources s).2) = dom (resources s).
Proof.
  destruct (for_each_update_resource RESOURCE_TYPES s RESOURCE_TYPES_NoDup)
    as (_ & H2 & H3 & _).
  fold update_resources in H2, H3.
  apply set_eq. intros rt. rewrite !elem_of_dom.
  destruct (decide (rt ∈ RESOURCE_TYPES)) as [Hin|Hout]; [|by rewrite H2].
  destruct (H3 rt Hin) as [[[v Hv] ->]|[_ ->]]; [|done].
  rewrite Hv. unfold ticked_value in Hv.
  destruct (villagers s !! rt); cbn in Hv; [|done].
  destruct (RESOURCE_PERCENTAGES !! rt); cbn in Hv; [|done].
  destruct (float_of_int _); cbn in Hv; [|done].
  destruct (resources s !! rt); cbn in Hv; [|done].
  split; eauto.
Qed.

(** X8.  A command never writes the ledger and a tick never writes the
    allocation; an interrupt writes neither.  No step adds a category to a
    record or removes one. *)
Theorem sole_writers (p : process) (ev : event) (line : string) :
  resources (mem (step p (Command line))) = resources (mem p)
  ∧ villagers (mem (step p Tick)) = villagers (mem p)
  ∧ (resources (mem (step p Interrupt)) = resources (mem p)
     ∧ villagers (mem (step p Interrupt)) = villagers (mem p))
  ∧ (dom (villagers (mem (step p ev))) = dom (villagers (mem p))
     ∧ dom (resources (mem (step p ev))) = dom (resources (mem p))).
Proof.
  split; [apply step_command_resources|]. split; [apply step_tick_villagers|].
  split; [apply step_interrupt_frame|].
  destruct ev as [l| |].
  - rewrite step_command_resources. split; [|done].
    destruct (step_villagers p (Command l)) as [->|(l' & [= <-] & ->)]; [done|].
    unfold handle_command. rewrite handle_parts_allocation.
    apply allocation_after_dom.
  - rewrite step_tick_villagers. split; [done|].
    destruct (step_resources p Tick) as [->| ->]; [done|].
    apply update_resources_dom.
  - destruct (step_interrupt_frame p) as [-> ->]. done.
Qed.

(** The effects of one step, as far as the two files go. *)
Lemma step_trace (p : process) (ev : event) :
  ∃ l, trace (mem (step p ev)) = (trace (mem p) ++ l)%list
       ∧ (∀ v, saved_villagers v l = v
               ∨ saved_villagers v l = villagers (mem (step p ev)))
       ∧ (villagers (mem (step p ev)) ≠ villagers (mem p) →
          ∀ v, saved_villagers v l = villagers (mem (step p ev)))
       ∧ (ticking (step p ev) = true →
          saved_resources (resources (mem p)) l = resources (mem (step p ev))).
Proof.
  unfold step. destruct (alive p) eqn:Halive; cbn [negb].
  2:{ exists []. rewrite app_nil_r. repeat split; try done; auto. }
  destruct ev as [line| |].
  - unfold after_command, handle_command.
    pose proof (handle_parts_effect (PyStr.split (PyStr.strip line)) (mem p)) as [Hres _].
    destruct (handle_parts_trace (PyStr.split (PyStr.strip line)) (mem p))
      as (l & E & H).
    set (v' := allocation_after (PyStr.split (PyStr.strip line)) (villagers (mem p))) in *.
    assert (Hv : ∀ l', Forall is_Log l' →
              (∀ v, saved_villagers v (l ++ l') = v ∨ saved_villagers v (l ++ l') = v')
              ∧ (v' ≠ villagers (mem p) → ∀ v, saved_villagers v (l ++ l') = v')
              ∧ (∀ r, saved_resources r (l ++ l') = r)).
    { intros l' Hl'. destruct (saved_only_logs l' Hl') as [H1 H2].
      destruct H as [[Hl Heq]|[m ->]].
      - destruct (saved_only_logs l Hl) as [H3 H4].
        split; [|split]; intros.
        + left. by rewrite saved_villagers_app, H3, H1.
        + done.
        + by rewrite saved_resources_app, H4, H2.
      - split; [|split]; intros.
        + right. by rewrite saved_villagers_app, H1.
        + by rewrite saved_villagers_app, H1.
        + by rewrite saved_resources_app, H2. }
    destruct (handle_parts _ (mem p)) as [[[]|e] s1]; cbn [snd] in E, Hres; subst s1.
    + cbn [mem villagers trace resources]. exists l.
      destruct (Hv [] ltac:(constructor)) as (H1 & H2 & H3).
      rewrite app_nil_r in *.
      split; [done|]. split; [done|]. split; [done|]. intros _. by rewrite H3.
    + destruct (is_Exception e).
      * cbn [mem villagers trace resources with_trace]. eexists (l ++ _)%list.
        destruct (Hv [Log (Text ("An unexpected error occurred: " ++ exn_text e));
                      Log (Text "Game exited due to error.")]
                    ltac:(repeat constructor)) as (H1 & H2 & H3).
        split; [by rewrite <- app_assoc|].
        split; [done|]. split; [done|]. intros _. by rewrite H3.
      * cbn [mem villagers trace resources]. exists l.
        destruct (Hv [] ltac:(constructor)) as (H1 & H2 & H3).
        rewrite app_nil_r in *.
        split; [done|]. split; [done|]. split; [done|]. intros _. by rewrite H3.
  - destruct (ticking p) eqn:Htick.
    2:{ exists []. rewrite app_nil_r. repeat split; try done; auto. }
    destruct (game_tick_trace (mem p)) as (l & Hl & E).
    pose proof (game_tick_villagers (mem p)) as Hv.
    destruct (saved_only_logs l Hl) as [H1 H2].
    destruct (game_tick (mem p)) as [[[]|e] s1]; cbn [fst snd mem ticking] in *.
    + exists (l ++ [SaveResources (resources s1)])%list.
      split; [done|]. split; [|split].
      * intros v. left. by rewrite saved_villagers_app, H1.
      * by rewrite Hv.
      * intros _. by rewrite saved_resources_app, H2.
    + exists l. split; [done|]. split; [|split].
      * intros v. left. apply H1.
      * by rewrite Hv.
      * done.
  - cbn [mem villagers trace resources with_trace]. eexists.
    split; [reflexivity|]. repeat split; try done; auto.
Qed.

(** X9.  The allocation last saved is the allocation in memory: a step
    keeps this, so it holds in every state reached from the initial state,
    where the file holds the defaults. *)
Theorem allocation_saved_when_changed :
  (∀ (v0 : gmap string Z) (p : process) (ev : event),
     saved_villagers v0 (trace (mem p)) = villagers (mem p) →
     saved_villagers v0 (trace (mem (step p ev))) = villagers (mem (step p ev)))
  ∧ (∀ evs : list event,
       saved_villagers default_villagers (trace (mem (run initial evs)))
       = villagers (mem (run initial evs))).
Proof.
  assert (Hstep : ∀ (v0 : gmap string Z) (p : process) (ev : event),
     saved_villagers v0 (trace (mem p)) = villagers (mem p) →
     saved_villagers v0 (trace (mem (step p ev))) = villagers (mem (step p ev))).
  { intros v0 p ev Hinv.
    destruct (step_trace p ev) as (l & -> & H1 & H2 & _).
    rewrite saved_villagers_app, Hinv.
    destruct (decide (villagers (mem (step p ev)) = villagers (mem p))) as [E|E].
    - destruct (H1 (villagers (mem p))) as [->| ->]; done.
    - by apply H2. }
  split; [exact Hstep|].
  induction evs as [|ev evs IH] using rev_ind; [reflexivity|].
  rewrite run_snoc. by apply Hstep.
Qed.

Lemma allocation_saved_when_changed_witness :
  saved_villagers default_villagers
    (trace (mem (step initial (Command "get gold with 10 villagers"))))
  = villagers (mem (step initial (Command "get gold with 10 villagers"))).
Proof.
  apply (proj1 allocation_saved_when_changed default_villagers initial
           (Command "get gold with 10 villagers")).
  reflexivity.
Defined.

(** X10.  As long as the game thread is alive, the ledger last saved is
    the ledger in memory: every tick that completes saves what it has
    computed, and commands do not touch the ledger. *)
Theorem ledger_saved_after_tick :
  (∀ (r0 : gmap string float) (p : process) (ev : event),
     saved_resources r0 (trace (mem p)) = resources (mem p) →
     ticking (step p ev) = true →
     saved_resources r0 (trace (mem (step p ev))) = resources (mem (step p ev)))
  ∧ (∀ evs : list event,
       ticking (run initial evs) = true →
       saved_resources default_resources (trace (mem (run initial evs)))
       = resources (mem (run initial evs))).
Proof.
  assert (Hstep : ∀ (r0 : gmap string float) (p : process) (ev : event),
     saved_resources r0 (trace (mem p)) = resources (mem p) →
     ticking (step p ev) = true →
     saved_resources r0 (trace (mem (step p ev))) = resources (mem (step p ev))).
  { intros r0 p ev Hinv Htick.
    destruct (step_trace p ev) as (l & E & _ & _ & H3).
    rewrite E, saved_resources_app, Hinv. by apply H3. }
  split; [exact Hstep|].
  induction evs as [|ev evs IH] using rev_ind; [reflexivity|].
  rewrite run_snoc. intros Htick. apply Hstep; [|done].
  apply IH. by apply ticking_step in Htick.
Qed.

Lemma ledger_saved_after_tick_witness :
  saved_resources default_resources (trace (mem (step initial Tick)))
  = resources (mem (step initial Tick))
  ∧ saved_resources default_resources
      (trace (mem (run initial [Command "get gold with 10 villagers"; Tick])))
    = resources (mem (run initial [Command "get gold with 10 villagers"; Tick])).
Proof.
  split.
  - apply (proj1 ledger_saved_after_tick default_resources initial Tick).
    + reflexivity.
    + vm_compute. reflexivity.
  - apply (proj2 ledger_saved_after_tick
             [Command "get gold with 10 villagers"; Tick]).
    vm_compute. reflexivity.
Defined.

(** X11.  Once the game thread has died, the ledger is frozen: no later
    event, tick or command, changes a stockpile, and the thread does not
    come back. *)
Theorem ledger_frozen_after_thread_death (p : process) (evs : list event) :
  ticking p = false →
  resources (mem (run p evs)) = resources (mem p)
  ∧ ticking (run p evs) = false.
Proof.
  intros Hdead. induction evs as [|ev evs [IH1 IH2]] using rev_ind; [done|].
  rewrite run_snoc. split.
  - rewrite <- IH1. destruct ev as [line| |].
    + apply step_command_resources.
    + unfold step. destruct (alive (run p evs)); cbn [negb]; [|done].
      by rewrite IH2.
    + apply step_interrupt_frame.
  - destruct (ticking (step (run p evs) ev)) eqn:E; [|done].
    apply ticking_step in E. congruence.
Qed.

(** The game thread dies on the first tick when the allocation lacks a
    category. *)
Lemma ledger_frozen_after_thread_death_witness :
  resources (mem (run (Process (Store default_resources ∅ []) true false)
                      [Tick; Command "status"; Tick]))
  = resources (mem (Process (Store default_resources ∅ []) true false))
  ∧ ticking (run (Process (Store default_resources ∅ []) true false)
                 [Tick; Command "status"; Tick]) = false.
Proof.
  apply (ledger_frozen_after_thread_death
           (Process (Store default_resources ∅ []) true false)
           [Tick; Command "status"; Tick]).
  reflexivity.
Defined.

(** ** More on the accumulator *)

(** Being at least zero, as a test on floats. *)
Lemma leb_zero (r : float) :
  (0 <=? r)%float = true ↔ signed false (Prim2SF r).
Proof.
  rewrite leb_spec, Prim2SF_zero.
  destruct (Prim2SF r) as [s|[]| |[] m e]; cbn; split; done.
Qed.

Lemma SFadd_signed (x y : spec_float) :
  signed false x → signed false y → signed false (SFadd prec emax x y).
Proof.
  destruct x as [sx|sx| |sx mx ex], y as [sy|sy| |sy my ey]; cbn; try done.
  - by destruct sx, sy.
  - by intros -> ->.
  - intros -> ->.
    destruct (shl_align mx ex (Z.min ex ey)) as [X' ?],
             (shl_align my ey (Z.min ex ey)) as [Y' ?].
    cbn [fst cond_Zopp].
    destruct (Z.pos X' + Z.pos Y') as [|P|P] eqn:HM; try lia.
    cbn [binary_normalize]. apply binary_round_signed.
Qed.

Lemma add_nonneg (r g : float) :
  (0 <=? r)%float = true → signed false (Prim2SF g) → (0 <=? r + g)%float = true.
Proof.
  intros Hr Hg. apply leb_zero. rewrite add_spec.
  apply SFadd_signed; [by apply leb_zero|done].
Qed.

(** The new stockpile of a category, from the old one. *)
Lemma update_resources_lookup (s : store) (rt : string) (r' : float) :
  resources (update_resources s).2 !! rt = Some r' →
  resources s !! rt = Some r'
  ∨ ∃ n fv rate r,
      villagers s !! rt = Some n ∧ float_of_int n = Some fv
      ∧ RESOURCE_PERCENTAGES !! rt = Some rate ∧ resources s !! rt = Some r
      ∧ r' = (r + clamp (fv * rate))%float.
Proof.
  intros Hr'.
  destruct (for_each_update_resource RESOURCE_TYPES s RESOURCE_TYPES_NoDup)
    as (_ & H2 & H3 & _).
  fold update_resources in H2, H3.
  destruct (decide (rt ∈ RESOURCE_TYPES)) as [Hin|Hout];
    [|left; by rewrite <- H2].
  destruct (H3 rt Hin) as [[_ E]|[_ E]]; rewrite E in Hr'; [|by left].
  right. unfold ticked_value in Hr'.
  destruct (villagers s !! rt) as [n|]; cbn in Hr'; [|done].
  destruct (RESOURCE_PERCENTAGES !! rt) as [rate|]; cbn in Hr'; [|done].
  destruct (float_of_int n) as [fv|] eqn:Hfv; cbn in Hr'; [|done].
  destruct (resources s !! rt) as [r|]; cbn in Hr'; [|done].
  injection Hr' as <-. exists n, fv, rate, r. done.
Qed.

Lemma update_resources_nonneg (s : store) :
  (∀ rt r, resources s !! rt = Some r → (0 <=? r)%float = true) →
  ∀ rt r, resources (update_resources s).2 !! rt = Some r → (0 <=? r)%float = true.
Proof.
  intros Hs rt r' Hr'.
  destruct (update_resources_lookup s rt r' Hr')
    as [H|(n & fv & rate & r & Hn & Hfv & Hrate & Hr & ->)]; [by eapply Hs|].
  apply add_nonneg; [by eapply Hs|].
  eapply clamp_signed, gain_signed; done.
Qed.

Lemma default_resources_nonneg (rt : string) (r : float) :
  default_resources !! rt = Some r → (0 <=? r)%float = true.
Proof.
  unfold default_resources. cbn [list_to_map foldr fst snd]. intros H.
  repeat (apply lookup_insert_Some in H as [[_ <-]|[_ H]]; [reflexivity|]).
  by rewrite lookup_empty in H.
Qed.

(** X12.  Stockpiles never go negative: a tick keeps every stockpile at or
    above zero when all of them are, and so they are in every state
    reached from the initial state. *)
Theorem ledger_never_negative :
  (∀ s : store,
     (∀ rt r, resources s !! rt = Some r → (0 <=? r)%float = true) →
     ∀ rt r, resources (game_tick s).2 !! rt = Some r → (0 <=? r)%float = true)
  ∧ (∀ (evs : list event) (rt : string) (r : float),
       resources (mem (run initial evs)) !! rt = Some r → (0 <=? r)%float = true).
Proof.
  split.
  - intros s Hs rt r. rewrite (proj1 (game_tick_resources s)).
    by apply update_resources_nonneg.
  - induction evs as [|ev evs IH] using rev_ind; intros rt r.
    + apply default_resources_nonneg.
    + rewrite run_snoc.
      destruct (step_resources (run initial evs) ev) as [->| ->]; [apply IH|].
      by apply update_resources_nonneg.
Qed.

Lemma ledger_never_negative_witness :
  ∃ r, resources (game_tick sixty_on_gold).2 !! "gold" = Some r
       ∧ (0 <=? r)%float = true.
Proof.
  eexists. split; [vm_compute; reflexivity|].
  apply (proj1 ledger_never_negative sixty_on_gold default_resources_nonneg "gold").
  vm_compute. reflexivity.
Defined.

Lemma eqb_refl_number (r : float) :
  (r =? r)%float = true → SFeqb (Prim2SF r) (Prim2SF r) = true.
Proof. by rewrite FloatAxioms.eqb_spec. Qed.

(** Adding a zero to a number gives that number, up to the sign of zero. *)
Lemma SFadd_zero (x z : spec_float) (sz : bool) :
  SFeqb x x = true → z = S754_zero sz → SFeqb (SFadd prec emax x z) x = true.
Proof.
  intros Hx ->. destruct x as [sx|sx| |sx mx ex]; cbn in *; try done.
  by destruct sx, sz.
Qed.

(** The gain added for a count that is not positive is a zero. *)
Lemma clamp_nonpositive (rt : string) (n : Z) (fv rate : float) :
  n ≤ 0 → float_of_int n = Some fv → RESOURCE_PERCENTAGES !! rt = Some rate →
  ∃ sz, Prim2SF (clamp (fv * rate)) = S754_zero sz.
Proof.
  intros Hn Hfv Hrate.
  destruct (rate_positive rt rate Hrate) as (m & e & Hm).
  assert (Hcases : signed true (Prim2SF (fv * rate))
                   ∨ ∃ sz, Prim2SF (fv * rate) = S754_zero sz).
  { destruct (decide (n = 0)) as [->|Hne].
    - right. assert (fv = 0%float) as -> by (vm_compute in Hfv; congruence).
      rewrite mul_spec, Hm, Prim2SF_zero. cbn. eauto.
    - left. pose proof (gain_signed rt n fv rate Hfv Hrate) as Hg.
      by rewrite (proj2 (Z.ltb_lt n 0)) in Hg by lia. }
  unfold clamp. rewrite ltb_spec, Prim2SF_zero.
  destruct Hcases as [Hs|[sz Hz]].
  - destruct (Prim2SF (fv * rate)) as [s'|[]| |[] m' e'] eqn:E; cbn in *; try done.
    + rewrite E. eauto.
    + rewrite ?Prim2SF_zero. eauto.
    + rewrite ?Prim2SF_zero. eauto.
  - rewrite Hz. cbn. rewrite Hz. eauto.
Qed.

(** X13.  A category whose count is zero or negative gains nothing: after
    a tick its stockpile is equal, as a number, to what it was. *)
Theorem nonpositive_count_gains_nothing
    (s : store) (rt : string) (n : Z) (r : float) :
  villagers s !! rt = Some n → n ≤ 0 →
  resources s !! rt = Some r → (r =? r)%float = true →
  ∃ r', resources (game_tick s).2 !! rt = Some r' ∧ (r' =? r)%float = true.
Proof.
  intros Hn Hle Hr Hnum.
  rewrite (proj1 (game_tick_resources s)).
  destruct (for_each_update_resource RESOURCE_TYPES s RESOURCE_TYPES_NoDup)
    as (_ & H2 & H3 & _).
  fold update_resources in H2, H3.
  assert (Hsame : ∃ r', Some r = Some r' ∧ (r' =? r)%float = true) by eauto.
  destruct (decide (rt ∈ RESOURCE_TYPES)) as [Hin|Hout]; [|by rewrite H2, Hr].
  destruct (H3 rt Hin) as [[[v Hv] ->]|[_ ->]]; [|by rewrite Hr].
  rewrite Hv. unfold ticked_value in Hv. rewrite Hn, Hr in Hv. cbn in Hv.
  destruct (RESOURCE_PERCENTAGES !! rt) as [rate|] eqn:Hrate; cbn in Hv; [|done].
  destruct (float_of_int n) as [fv|] eqn:Hfv; cbn in Hv; [|done].
  injection Hv as <-. eexists. split; [done|].
  destruct (clamp_nonpositive rt n fv rate Hle Hfv Hrate) as [sz Hz].
  rewrite FloatAxioms.eqb_spec, add_spec.
  eapply SFadd_zero; [by apply eqb_refl_number|done].
Qed.

Lemma nonpositive_count_gains_nothing_witness :
  ∃ r', resources (game_tick sixty_on_gold).2 !! "stone" = Some r'
        ∧ (r' =? 0)%float = true.
Proof.
  apply (nonpositive_count_gains_nothing sixty_on_gold "stone" 0 0%float).
  - vm_compute. reflexivity.
  - lia.
  - vm_compute. reflexivity.
  - vm_compute. reflexivity.
Defined.

(** ** When the game thread lives and when it dies *)

Lemma sum_values_empty : sum_values ∅ = 0.
Proof. reflexivity. Qed.

Lemma sum_values_nonneg (v : gmap string Z) :
  map_Forall (λ _ n, 0 ≤ n) v → 0 ≤ sum_values v.
Proof.
  induction v as [|k x v Hk IH] using map_ind; intros Hv; [done|].
  apply map_Forall_insert in Hv as [Hx Hv]; [|done].
  unfold sum_values in *.
  rewrite map_fold_insert_L; [|intros; lia|done].
  specialize (IH Hv). lia.
Qed.

(** Among non-negative counts, none exceeds the total. *)
Lemma sum_values_ge (v : gmap string Z) (k : string) (x : Z) :
  map_Forall (λ _ n, 0 ≤ n) v → v !! k = Some x → x ≤ sum_values v.
Proof.
  intros Hv Hk.
  assert (H : 0 ≤ sum_values (<[k := 0]> v)).
  { apply sum_values_nonneg. apply map_Forall_insert_2; [lia|done]. }
  rewrite (sum_values_insert v k x) in H by done. lia.
Qed.

Lemma small_counts_convert (n : Z) :
  0 ≤ n ≤ 100 → is_Some (float_of_int n).
Proof.
  intros Hn.
  assert (H : forallb (λ k, match float_of_int (Z.of_nat k) with
                            | Some _ => true
                            | None => false
                            end) (seq 0 101) = true) by (vm_compute; reflexivity).
  rewrite forallb_forall in H.
  specialize (H (Z.to_nat n)). rewrite Z2Nat.id in H by lia.
  destruct (float_of_int n); [eauto|].
  discriminate H. apply in_seq. lia.
Qed.

Lemma default_keys (rt : string) :
  rt ∈ RESOURCE_TYPES →
  rt ∈ dom default_villagers ∧ rt ∈ dom default_resources.
Proof.
  unfold RESOURCE_TYPES. intros H.
  repeat (apply elem_of_cons in H as [->|H];
          [split; apply elem_of_dom; eexists; reflexivity|]).
  by apply elem_of_nil in H.
Qed.

Lemma steady_fit (p : process) : steady p → fit_to_tick (mem p) = true.
Proof.
  intros (_ & Hnn & Hsum & Hdv & Hdr).
  apply fit_to_tick_spec. intros rt Hrt.
  destruct (default_keys rt Hrt) as [Hv Hr].
  rewrite <- Hdv in Hv. rewrite <- Hdr in Hr.
  apply elem_of_dom in Hv as [n Hn]. apply elem_of_dom in Hr as [r Hr].
  pose proof (Hnn rt n Hn) as H0. cbn in H0.
  pose proof (sum_values_ge _ rt n Hnn Hn) as Hle.
  destruct (small_counts_convert n) as [fv Hfv];
    [unfold TOTAL_VILLAGERS in *; lia|].
  exists n, fv, r. done.
Qed.

Lemma allocation_after_steady (parts : list string) (v : gmap string Z) :
  match count_token parts with Some k => 0 ≤ k | None => True end →
  map_Forall (λ _ n, 0 ≤ n) v → sum_values v ≤ TOTAL_VILLAGERS →
  map_Forall (λ _ n, 0 ≤ n) (allocation_after parts v)
  ∧ sum_values (allocation_after parts v) ≤ TOTAL_VILLAGERS.
Proof.
  intros Hk Hv Hsum. unfold allocation_after, count_token in *.
  destruct parts as [|a [|r [|t3 [|n rest]]]]; try done.
  case_bool_decide; [|done].
  destruct (PyStr.py_int n) as [num|]; [|done].
  destruct (v !! PyStr.lower r) as [old|] eqn:Hold; [|done].
  case_bool_decide; cbn [andb]; [|done].
  case_bool_decide as Hover; cbn [negb]; [done|].
  split.
  - apply map_Forall_insert_2; done.
  - rewrite (sum_values_insert v _ old) by done. lia.
Qed.

Lemma step_command_ticking (p : process) (line : string) :
  ticking (step p (Command line)) = ticking p.
Proof.
  unfold step. destruct (alive p); cbn [negb]; [|done].
  unfold after_command.
  destruct (handle_command (PyStr.strip line) (mem p)) as [[[]|e] s1]; [done|].
  destruct (is_Exception e); done.
Qed.

Lemma step_steady (p : process) (ev : event) :
  nonneg_count ev = true → steady p → steady (step p ev).
Proof.
  intros Hev Hp. pose proof Hp as (Htick & Hnn & Hsum & Hdv & Hdr).
  destruct (alive p) eqn:Halive; [|unfold step; by rewrite Halive].
  destruct ev as [line| |].
  - assert (Hv : villagers (mem (step p (Command line)))
                 = allocation_after (PyStr.split (PyStr.strip line)) (villagers (mem p))).
    { unfold step. rewrite Halive. cbn [negb]. unfold after_command, handle_command.
      rewrite <- handle_parts_allocation.
      destruct (handle_parts _ (mem p)) as [[[]|e] s1]; [done|].
      destruct (is_Exception e); done. }
    cbn [nonneg_count] in Hev.
    destruct (allocation_after_steady (PyStr.split (PyStr.strip line))
                (villagers (mem p))) as [H1 H2]; [|done..|].
    { destruct (count_token _); [lia|done]. }
    unfold steady.
    rewrite step_command_ticking, step_command_resources, Hv, allocation_after_dom.
    done.
  - destruct (step_tick_fit (mem p) (steady_fit p Hp)) as (E & _ & Hv).
    assert (Ep : p = Process (mem p) true true) by (destruct p; cbn in *; congruence).
    rewrite Ep at 1. rewrite E. unfold steady. cbn [mem ticking].
    rewrite Hv, (proj1 (game_tick_resources _)), update_resources_dom. done.
  - unfold step. rewrite Halive. cbn [negb]. done.
Qed.

(** X14.  As long as no command carries a negative count, the game thread
    never dies: in every state reached from the initial state both records
    have their four categories, every count lies between 0 and
    [TOTAL_VILLAGERS], and so every tick runs to its end and saves. *)
Theorem game_thread_survives (evs : list event) :
  forallb nonneg_count evs = true →
  ticking (run initial evs) = true
  ∧ fit_to_tick (mem (run initial evs)) = true
  ∧ (∀ rt n, villagers (mem (run initial evs)) !! rt = Some n
             → 0 ≤ n ≤ TOTAL_VILLAGERS)
  ∧ (game_tick (mem (run initial evs))).1 = Ok tt.
Proof.
  intros Hall.
  assert (Hs : steady (run initial evs)).
  { induction evs as [|ev evs IH] using rev_ind.
    - change (run initial []) with initial. unfold steady.
      split; [done|]. split; [|split; [|done]].
      + apply (bool_decide_unpack _). vm_compute. exact I.
      + rewrite initial_sum. unfold TOTAL_VILLAGERS. lia.
    - rewrite forallb_app in Hall. apply andb_prop in Hall as [Hall Hev].
      cbn in Hev. rewrite andb_true_r in Hev.
      rewrite run_snoc. apply step_steady; [done|by apply IH]. }
  pose proof (steady_fit _ Hs) as Hfit.
  destruct Hs as (Htick & Hnn & Hsum & _).
  split; [done|]. split; [done|]. split.
  - intros rt n Hn. split; [exact (Hnn rt n Hn)|].
    pose proof (sum_values_ge _ rt n Hnn Hn). lia.
  - destruct (update_resources_fit _ Hfit) as (Hok & _).
    by rewrite (proj2 (game_tick_resources _)).
Qed.

Lemma game_thread_survives_witness :
  ticking (run initial [Command "get gold with 60 villagers"; Tick; Command "status"])
  = true
  ∧ fit_to_tick (mem (run initial [Command "get gold with 60 villagers"; Tick;
                                   Command "status"])) = true
  ∧ (∀ rt n, villagers (mem (run initial [Command "get gold with 60 villagers"; Tick;
                                           Command "status"])) !! rt = Some n
             → 0 ≤ n ≤ TOTAL_VILLAGERS)
  ∧ (game_tick (mem (run initial [Command "get gold with 60 villagers"; Tick;
                                  Command "status"]))).1 = Ok tt.
Proof.
  apply (game_thread_survives
           [Command "get gold with 60 villagers"; Tick; Command "status"]).
  vm_compute. reflexivity.
Defined.

(** An integer of magnitude [2^1024] or more has no float. *)
Lemma float_of_int_overflow (n : Z) :
  2 ^ 1024 ≤ Z.abs n → float_of_int n = None.
Proof.
  intros Hn. unfold float_of_int.
  assert (Hr : ∀ (s : bool) (P : positive),
            2 ^ 1024 ≤ Z.pos P → binary_round prec emax s P 0 = S754_infinity s).
  { intros s P HP. unfold binary_round.
    destruct (Binary64.Zdigits2_bounds (Z.pos P) ltac:(lia)) as (_ & _ & Hup).
    cbn [Zdigits2] in Hup.
    set (d := Z.pos (digits2_pos P)) in *.
    assert (Hd : 1024 < d).
    { apply (Z.pow_lt_mono_r_iff 2); lia. }
    assert (Ht : fexp prec emax (d + 0) = d - 53) by (unfold fexp, emin, prec, emax; lia).
    rewrite Ht, Binary64.shl_align_ge by lia.
    destruct (Binary64.binary_round_aux_spec s (Z.pos P) 0 loc_Exact ltac:(lia))
      as (m1' & Hb & ->).
    cbn [Zdigits2] in *. fold d in Hb |- *. rewrite Ht in *.
    replace (Z.max 0 (d - 53)) with (d - 53) in * by lia.
    set (m1 := Z.pos P / 2 ^ (d - 53 - 0)) in *.
    set (e2 := Z.max (d - 53) (fexp prec emax (Zdigits2 m1' + (d - 53)))).
    assert (Hm1 : 0 < m1).
    { pose proof (Binary64.div_pow2_lower (Z.pos P) (d - 53 - 0) ltac:(lia)) as Hl.
      cbn [Zdigits2] in Hl. fold d in Hl.
      assert (0 < 2 ^ (d - 1 - (d - 53 - 0))); [|unfold m1; lia].
      apply Z.pow_pos_nonneg; lia. }
    assert (Hm2 : 0 < m1' / 2 ^ (e2 - (d - 53))).
    { destruct (decide (e2 = d - 53)) as [E|E].
      - rewrite E, Z.sub_diag, Z.div_1_r. lia.
      - assert (He2 : e2 = Zdigits2 m1' + (d - 53) - 53)
          by (unfold e2, fexp, emin, prec, emax in *; lia).
        pose proof (Binary64.div_pow2_lower m1' (e2 - (d - 53)) ltac:(lia) ltac:(lia)) as Hl.
        assert (0 < 2 ^ (Zdigits2 m1' - 1 - (e2 - (d - 53)))); [|lia].
        apply Z.pow_pos_nonneg; lia. }
    destruct (m1' / 2 ^ (e2 - (d - 53))) as [|m2|m2]; try lia.
    cbn [pack]. rewrite (proj2 (Z.leb_gt e2 (emax - prec))); [done|].
    unfold e2, emax, prec. lia. }
  destruct n as [|P|P]; cbn [Z.abs] in Hn.
  - pose proof (Z.pow_pos_nonneg 2 1024). lia.
  - cbn [binary_normalize]. by rewrite Hr.
  - cbn [binary_normalize]. by rewrite Hr.
Qed.

(** X15.  A count of magnitude [2^1024] or more cannot be converted to a
    float: the iteration of its category raises [OverflowError] before it
    changes or logs anything, and the game thread dies at that tick. *)
Theorem huge_count_kills_game_thread
    (p : process) (rt : string) (n : Z) (rate : float) :
  2 ^ 1024 ≤ Z.abs n →
  villagers (mem p) !! rt = Some n →
  RESOURCE_PERCENTAGES !! rt = Some rate →
  float_of_int n = None
  ∧ update_resource rt (mem p) = (Raised OverflowError, mem p)
  ∧ (alive p = true → ticking (step p Tick) = false).
Proof.
  intros Hn Hv Hrate.
  pose proof (float_of_int_overflow n Hn) as Hfv.
  split; [done|]. split.
  - rewrite update_resource_unfold, Hv, Hrate, Hfv. done.
  - intros Halive. unfold step. rewrite Halive. cbn [negb].
    destruct (ticking p) eqn:Htick; [|by rewrite Htick].
    assert (Hrt : rt ∈ RESOURCE_TYPES) by (apply rate_RESOURCE_TYPES; eauto).
    destruct (for_each_update_resource RESOURCE_TYPES (mem p) RESOURCE_TYPES_NoDup)
      as (_ & _ & H3 & _).
    fold update_resources in H3.
    assert (Hnot : (game_tick (mem p)).1 ≠ Ok tt).
    { rewrite (proj2 (game_tick_resources _)).
      destruct (H3 rt Hrt) as [[[v Hs] _]|[H _]]; [|done].
      unfold ticked_value in Hs. rewrite Hv, Hrate in Hs. cbn in Hs.
      rewrite Hfv in Hs. done. }
    destruct (game_tick (mem p)) as [[[]|e] s1]; [done|done].
Qed.

(** A huge negative count on stone. *)
Lemma huge_count_kills_game_thread_witness :
  float_of_int (- 2 ^ 1024) = None
  ∧ update_resource "stone"
      (Store default_resources (<["stone" := - 2 ^ 1024]> default_villagers) [])
    = (Raised OverflowError,
       Store default_resources (<["stone" := - 2 ^ 1024]> default_villagers) [])
  ∧ (true = true →
     ticking (step (Process (Store default_resources
                               (<["stone" := - 2 ^ 1024]> default_villagers) [])
                            true true) Tick) = false).
Proof.
  apply (huge_count_kills_game_thread
           (Process (Store default_resources
                      (<["stone" := - 2 ^ 1024]> default_villagers) []) true true)
           "stone" (- 2 ^ 1024) 0.90%float).
  - vm_compute. discriminate.
  - vm_compute. reflexivity.
  - vm_compute. reflexivity.
Defined.

(** ** A tick that fails half-way *)

Lemma for_each_stops (l1 l2 : list string) (x : string) (s : store) :
  NoDup (l1 ++ x :: l2) →
  (∀ rt, rt ∈ l1 → is_Some (ticked_value s rt)) →
  ticked_value s x = None →
  (∃ e, (for_each update_resource (l1 ++ x :: l2) s).1 = Raised e)
  ∧ (∀ rt, rt ∈ l1 →
       resources (for_each update_resource (l1 ++ x :: l2) s).2 !! rt
       = ticked_value s rt)
  ∧ (∀ rt, rt ∉ l1 →
       resources (for_each update_resource (l1 ++ x :: l2) s).2 !! rt
       = resources s !! rt).
Proof.
  revert s. induction l1 as [|a l1 IH]; intros s Hnd Hsome Hnone.
  - cbn [app for_each]. rewrite bind_unfold.
    pose proof (update_resource_ticked x s) as Hup. rewrite Hnone in Hup.
    destruct Hup as [e ->]. split; [eauto|]. split; [|done].
    intros rt Hrt. by apply elem_of_nil in Hrt.
  - change ((a :: l1) ++ x :: l2)%list with (a :: (l1 ++ x :: l2))%list in *.
    apply NoDup_cons in Hnd as [Ha Hnd].
    assert (Hax : a ≠ x).
    { intros ->. apply Ha, elem_of_app. right. left. }
    assert (Hal : a ∉ l1).
    { intros H. apply Ha, elem_of_app. by left. }
    cbn [for_each]. rewrite bind_unfold.
    pose proof (update_resource_ticked a s) as Hup.
    destruct (Hsome a ltac:(left)) as [v Hv]. rewrite Hv in Hup.
    destruct Hup as [t ->].
    set (s1 := Store (<[a := v]> (resources s)) (villagers s) t).
    assert (Hext : ∀ rt, rt ≠ a → ticked_value s1 rt = ticked_value s rt).
    { intros rt Hne. apply ticked_value_ext; [done|].
      cbn. by rewrite lookup_insert_ne. }
    destruct (IH s1 Hnd) as (H1 & H2 & H3).
    { intros rt Hrt. rewrite Hext; [apply Hsome; by right|]. by intros ->. }
    { rewrite Hext; done. }
    split; [done|]. split.
    + intros rt Hrt. apply elem_of_cons in Hrt as [->|Hrt].
      * rewrite H3 by done. cbn. by rewrite lookup_insert_eq.
      * rewrite H2 by done. apply Hext. by intros ->.
    + intros rt Hrt. apply not_elem_of_cons in Hrt as [Hne Hrt].
      rewrite H3 by done. cbn. by rewrite lookup_insert_ne.
Qed.

(** X16.  A tick is not atomic.  When the iteration of a category raises,
    the categories before it in [RESOURCE_TYPES] have got their gain in
    memory, that category and those after it have not, and the tick ends
    without saving the ledger. *)
Theorem tick_not_atomic (s : store) (l1 l2 : list string) (x : string) :
  RESOURCE_TYPES = (l1 ++ x :: l2)%list →
  (∀ rt, rt ∈ l1 → is_Some (ticked_value s rt)) →
  ticked_value s x = None →
  (∃ e, (game_tick s).1 = Raised e)
  ∧ (∀ rt, rt ∈ l1 → resources (game_tick s).2 !! rt = ticked_value s rt)
  ∧ (∀ rt, rt ∉ l1 → resources (game_tick s).2 !! rt = resources s !! rt)
  ∧ (∃ l, trace (game_tick s).2 = (trace s ++ l)%list ∧ Forall is_Log l).
Proof.
  intros Hl Hsome Hnone.
  pose proof RESOURCE_TYPES_NoDup as Hnd. rewrite Hl in Hnd.
  destruct (for_each_stops l1 l2 x s Hnd Hsome Hnone) as ([e He] & H2 & H3).
  rewrite <- Hl in He, H2, H3. fold update_resources in He, H2, H3.
  destruct (game_tick_resources s) as [Hr Hres]. rewrite Hr, Hres, He.
  split; [eauto|]. split; [done|]. split; [done|].
  destruct (game_tick_trace s) as (l & Hlog & Ht).
  rewrite Hres, He in Ht. eauto.
Qed.

(** The allocation has lost its wood: gold and stone get their gain, wood
    and food do not. *)
Lemma tick_not_atomic_witness :
  (∃ e, (game_tick wood_lost).1 = Raised e)
  ∧ (∀ rt, rt ∈ ["gold"; "stone"] →
       resources (game_tick wood_lost).2 !! rt = ticked_value wood_lost rt)
  ∧ (∀ rt, rt ∉ ["gold"; "stone"] →
       resources (game_tick wood_lost).2 !! rt = resources wood_lost !! rt)
  ∧ (∃ l, trace (game_tick wood_lost).2 = (trace wood_lost ++ l)%list
          ∧ Forall is_Log l).
Proof.
  apply (tick_not_atomic wood_lost ["gold"; "stone"] ["food"] "wood").
  - reflexivity.
  - intros rt Hrt.
    apply elem_of_cons in Hrt as [->|Hrt]; [vm_compute; eauto|].
    apply elem_of_cons in Hrt as [->|Hrt]; [vm_compute; eauto|].
    by apply elem_of_nil in Hrt.
  - vm_compute. reflexivity.
Defined.

(** ** The files *)

Lemma string_length_app (s t : string) :
  String.length (s ++ t) = (String.length s + String.length t)%nat.
Proof.
  induction s as [|c s IH]; [done|].
  change (String c s ++ t) with (String c (s ++ t)). cbn [String.length].
  by rewrite IH.
Qed.

Lemma string_app_inv_head (a b c : string) : a ++ b = a ++ c → b = c.
Proof.
  induction a as [|x a IH]; [done|].
  change (String x a ++ b) with (String x (a ++ b)).
  change (String x a ++ c) with (String x (a ++ c)).
  intros [= H]. by apply IH.
Qed.

Lemma string_app_ne (s t : string) : t ≠ EmptyString → s ++ t ≠ s.
Proof.
  intros Ht E. apply (f_equal String.length) in E.
  rewrite string_length_app in E. destruct t; [done|]. cbn in E. lia.
Qed.

Lemma join_inj (a b c : string) : Disk.join a b = Disk.join a c → b = c.
Proof.
  unfold Disk.join. destruct a as [|x a]; [done|].
  destruct (Disk.ends_with_slash _); intros E.
  - by apply string_app_inv_head in E.
  - apply string_app_inv_head in E. by apply string_app_inv_head in E.
Qed.

Lemma paths_distinct (h : Disk.host) :
  Disk.RESOURCES_FILE h ≠ Disk.LOG_FILE h
  ∧ Disk.VILLAGERS_FILE h ≠ Disk.LOG_FILE h
  ∧ Disk.RESOURCES_FILE h ≠ Disk.VILLAGERS_FILE h
  ∧ Disk.LOG_FILE h ++ Disk.BACKUP_LOG_SUFFIX ≠ Disk.LOG_FILE h.
Proof.
  unfold Disk.RESOURCES_FILE, Disk.VILLAGERS_FILE, Disk.LOG_FILE.
  repeat split; try (intros E; apply join_inj in E; discriminate E).
  by apply string_app_ne.
Qed.

(** [log_message] writes to the log only. *)
Lemma log_message_files (h : Disk.host) (m : string) (w : Disk.world) (path : string) :
  path ≠ Disk.LOG_FILE h →
  Disk.files (Disk.log_message h m w) !! path = Disk.files w !! path.
Proof.
  intros Hne. unfold Disk.log_message.
  destruct (Disk.write_error h (Disk.LOG_FILE h)); cbn; [done|].
  by rewrite lookup_insert_ne.
Qed.

Lemma log_effects_files (h : Disk.host) (effs : list effect) (w : Disk.world)
    (path : string) :
  path ≠ Disk.LOG_FILE h →
  Disk.files (Disk.log_effects h effs w) !! path = Disk.files w !! path.
Proof.
  intros Hne. unfold Disk.log_effects. revert w.
  induction effs as [|e effs IH]; intros w; [done|].
  cbn [fold_left]. rewrite IH.
  destruct e as [[]| |]; try done. by apply log_message_files.
Qed.

Lemma readable_lookup (h : Disk.host) (w : Disk.world) (path : string) :
  Disk.readable h w !! path
  = match Disk.files w !! path with
    | Some text => Some match Disk.read_error h path with
                        | Some e => Denied e
                        | None => Readable text
                        end
    | None => None
    end.
Proof.
  unfold Disk.readable. rewrite map_lookup_imap.
  destruct (Disk.files w !! path); done.
Qed.

(** What a loader returns depends on its own file only, and a loader
    writes to the log only. *)
Lemma load_resources_result (h : Disk.host) (w w' : Disk.world) :
  Disk.files w' !! Disk.RESOURCES_FILE h = Disk.files w !! Disk.RESOURCES_FILE h →
  (Disk.load_resources h w').1 = (Disk.load_resources h w).1.
Proof.
  intros E. unfold Disk.load_resources, load_resources.
  rewrite !readable_lookup, E.
  destruct (Disk.files w !! Disk.RESOURCES_FILE h) as [text|]; [|done].
  destruct (Disk.read_error h _); [done|].
  destruct (Disk.json_load h text) as [[]|]; done.
Qed.

Lemma load_villagers_result (h : Disk.host) (w w' : Disk.world) :
  Disk.files w' !! Disk.VILLAGERS_FILE h = Disk.files w !! Disk.VILLAGERS_FILE h →
  (Disk.load_villagers h w').1 = (Disk.load_villagers h w).1.
Proof.
  intros E. unfold Disk.load_villagers, load_villagers.
  rewrite !readable_lookup, E.
  destruct (Disk.files w !! Disk.VILLAGERS_FILE h) as [text|]; [|done].
  destruct (Disk.read_error h _); [done|].
  destruct (Disk.json_load h text) as [[]|]; done.
Qed.

Lemma load_resources_files (h : Disk.host) (w : Disk.world) (path : string) :
  path ≠ Disk.LOG_FILE h →
  Disk.files (Disk.load_resources h w).2 !! path = Disk.files w !! path.
Proof.
  intros Hne. unfold Disk.load_resources.
  destruct (load_resources _ _ _) as [r effs]. by apply log_effects_files.
Qed.

Lemma load_villagers_files (h : Disk.host) (w : Disk.world) (path : string) :
  path ≠ Disk.LOG_FILE h →
  Disk.files (Disk.load_villagers h w).2 !! path = Disk.files w !! path.
Proof.
  intros Hne. unfold Disk.load_villagers.
  destruct (load_villagers _ _ _) as [r effs]. by apply log_effects_files.
Qed.

(** A loader that finds its file readable and well-formed returns the
    value and logs nothing. *)
Lemma load_resources_readable (h : Disk.host) (w : Disk.world) (text : string)
    (v : json) :
  Disk.files w !! Disk.RESOURCES_FILE h = Some text →
  Disk.read_error h (Disk.RESOURCES_FILE h) = None →
  Disk.json_load h text = inr v →
  Disk.load_resources h w = (Ok v, w).
Proof.
  intros Hf Hr Hj. unfold Disk.load_resources, load_resources.
  by rewrite readable_lookup, Hf, Hr, Hj.
Qed.

Lemma load_villagers_readable (h : Disk.host) (w : Disk.world) (text : string)
    (v : json) :
  Disk.files w !! Disk.VILLAGERS_FILE h = Some text →
  Disk.read_error h (Disk.VILLAGERS_FILE h) = None →
  Disk.json_load h text = inr v →
  Disk.load_villagers h w = (Ok v, w).
Proof.
  intros Hf Hr Hj. unfold Disk.load_villagers, load_villagers.
  by rewrite readable_lookup, Hf, Hr, Hj.
Qed.

(** X17.  What is saved is what is loaded: after a save that can write,
    the loader of the same record returns the saved value and reports
    nothing, whenever the JSON library reads back what it has written. *)
Theorem save_then_load (h : Disk.host) (v : json) (w : Disk.world) :
  Disk.json_load h (Disk.json_dump h v) = inr v →
  (Disk.write_error h (Disk.RESOURCES_FILE h) = None →
   Disk.read_error h (Disk.RESOURCES_FILE h) = None →
   Disk.load_resources h (Disk.save_resources h v w)
   = (Ok v, Disk.save_resources h v w))
  ∧ (Disk.write_error h (Disk.VILLAGERS_FILE h) = None →
     Disk.read_error h (Disk.VILLAGERS_FILE h) = None →
     Disk.load_villagers h (Disk.save_villagers h v w)
     = (Ok v, Disk.save_villagers h v w)).
Proof.
  intros Hj. split; intros Hw Hr.
  - apply (load_resources_readable _ _ (Disk.json_dump h v)); [|done..].
    unfold Disk.save_resources. rewrite Hw. cbn. by rewrite lookup_insert_eq.
  - apply (load_villagers_readable _ _ (Disk.json_dump h v)); [|done..].
    unfold Disk.save_villagers. rewrite Hw. cbn. by rewrite lookup_insert_eq.
Qed.

Lemma save_then_load_witness :
  Disk.load_resources Disk.plain_host
    (Disk.save_resources Disk.plain_host default_record Disk.empty_world)
  = (Ok default_record,
     Disk.save_resources Disk.plain_host default_record Disk.empty_world)
  ∧ Disk.load_villagers Disk.plain_host
      (Disk.save_villagers Disk.plain_host default_record Disk.empty_world)
    = (Ok default_record,
       Disk.save_villagers Disk.plain_host default_record Disk.empty_world).
Proof.
  split.
  - apply (proj1 (save_then_load Disk.plain_host default_record Disk.empty_world
                    eq_refl)); reflexivity.
  - apply (proj2 (save_then_load Disk.plain_host default_record Disk.empty_world
                    eq_refl)); reflexivity.
Defined.

(** X18.  A save that cannot write is harmless: it raises nothing, every
    file but the log keeps its text, and both loaders return afterwards
    what they would have returned before. *)
Theorem failed_save_keeps_records (h : Disk.host) (v : json) (w : Disk.world)
    (e : string) :
  (Disk.write_error h (Disk.RESOURCES_FILE h) = Some e →
   (∀ path, path ≠ Disk.LOG_FILE h →
      Disk.files (Disk.save_resources h v w) !! path = Disk.files w !! path)
   ∧ (Disk.load_resources h (Disk.save_resources h v w)).1
     = (Disk.load_resources h w).1
   ∧ (Disk.load_villagers h (Disk.save_resources h v w)).1
     = (Disk.load_villagers h w).1)
  ∧ (Disk.write_error h (Disk.VILLAGERS_FILE h) = Some e →
     (∀ path, path ≠ Disk.LOG_FILE h →
        Disk.files (Disk.save_villagers h v w) !! path = Disk.files w !! path)
     ∧ (Disk.load_resources h (Disk.save_villagers h v w)).1
       = (Disk.load_resources h w).1
     ∧ (Disk.load_villagers h (Disk.save_villagers h v w)).1
       = (Disk.load_villagers h w).1).
Proof.
  destruct (paths_distinct h) as (Hr & Hv & _).
  split; intros Hw.
  - assert (Hf : ∀ path, path ≠ Disk.LOG_FILE h →
              Disk.files (Disk.save_resources h v w) !! path = Disk.files w !! path).
    { intros path Hne. unfold Disk.save_resources. rewrite Hw.
      by apply log_message_files. }
    split; [done|]. split.
    + apply load_resources_result. by apply Hf.
    + apply load_villagers_result. by apply Hf.
  - assert (Hf : ∀ path, path ≠ Disk.LOG_FILE h →
              Disk.files (Disk.save_villagers h v w) !! path = Disk.files w !! path).
    { intros path Hne. unfold Disk.save_villagers. rewrite Hw.
      by apply log_message_files. }
    split; [done|]. split.
    + apply load_resources_result. by apply Hf.
    + apply load_villagers_result. by apply Hf.
Qed.

Lemma failed_save_keeps_records_witness :
  (∀ path, path ≠ Disk.LOG_FILE Disk.read_only_host →
     Disk.files (Disk.save_resources Disk.read_only_host JNull Disk.played_world) !! path
     = Disk.files Disk.played_world !! path)
  ∧ (Disk.load_resources Disk.read_only_host
       (Disk.save_resources Disk.read_only_host JNull Disk.played_world)).1
    = (Disk.load_resources Disk.read_only_host Disk.played_world).1
  ∧ (Disk.load_villagers Disk.read_only_host
       (Disk.save_resources Disk.read_only_host JNull Disk.played_world)).1
    = (Disk.load_villagers Disk.read_only_host Disk.played_world).1.
Proof.
  apply (proj1 (failed_save_keeps_records Disk.read_only_host JNull Disk.played_world
                  "[Errno 30] Read-only file system: '/srv/game/resources.json'")).
  reflexivity.
Defined.

(** ** Start-up *)

Lemma ensure_data_file_spec (h : Disk.host) (filename : string) (d : json)
    (w : Disk.world) :
  filename ≠ Disk.LOG_FILE h →
  ((Disk.ensure_data_file h filename d w).1 = Ok tt
   ∨ (Disk.ensure_data_file h filename d w).1 = Raised (SystemExit 1))
  ∧ ((Disk.ensure_data_file h filename d w).1 = Ok tt →
     Disk.files (Disk.ensure_data_file h filename d w).2 !! filename
     = Some match Disk.files w !! filename with
            | Some text => text
            | None => Disk.json_dump h d
            end)
  ∧ (∀ path, path ≠ Disk.LOG_FILE h → path ≠ filename →
       Disk.files (Disk.ensure_data_file h filename d w).2 !! path
       = Disk.files w !! path)
  ∧ (is_Some (Disk.files w !! filename) ∨ Disk.write_error h filename = None →
     (Disk.ensure_data_file h filename d w).1 = Ok tt)
  ∧ (is_Some (Disk.files w !! filename) →
     Disk.ensure_data_file h filename d w = (Ok tt, w)).
Proof.
  intros Hne. unfold Disk.ensure_data_file.
  destruct (Disk.files w !! filename) as [text|] eqn:Hf.
  { cbn. rewrite Hf. repeat split; auto. }
  destruct (Disk.write_error h filename) as [e|] eqn:Hw; cbn [fst snd].
  - split; [by right|]. split; [done|]. split.
    + intros path Hp _. by apply log_message_files.
    + split; [|by intros [? [=]]]. intros [[? [=]]|[=]].
  - split; [by left|]. split.
    + intros _. rewrite log_message_files by done. cbn. by rewrite lookup_insert_eq.
    + split; [|split; [done|by intros [? [=]]]].
      intros path Hp Hq. rewrite log_message_files by done. cbn.
      by rewrite lookup_insert_ne.
Qed.

(** X19.  [ensure_data_files] either succeeds or exits with status 1; when
    it succeeds both record files exist; and in either case it never
    overwrites a file that was there: every file but the log keeps its
    text. *)
Theorem ensure_data_files_keeps_what_exists (h : Disk.host) (w : Disk.world) :
  ((Disk.ensure_data_files h w).1 = Ok tt
   ∨ (Disk.ensure_data_files h w).1 = Raised (SystemExit 1))
  ∧ ((Disk.ensure_data_files h w).1 = Ok tt →
     is_Some (Disk.files (Disk.ensure_data_files h w).2 !! Disk.RESOURCES_FILE h)
     ∧ is_Some (Disk.files (Disk.ensure_data_files h w).2 !! Disk.VILLAGERS_FILE h))
  ∧ (∀ path text, path ≠ Disk.LOG_FILE h →
       Disk.files w !! path = Some text →
       Disk.files (Disk.ensure_data_files h w).2 !! path = Some text).
Proof.
  destruct (paths_distinct h) as (Hr & Hv & Hrv & _).
  assert (Hkeep : ∀ fn d w0 path text, fn ≠ Disk.LOG_FILE h →
            path ≠ Disk.LOG_FILE h → Disk.files w0 !! path = Some text →
            Disk.files (Disk.ensure_data_file h fn d w0).2 !! path = Some text).
  { intros fn d w0 path text Hfn Hp Hf.
    destruct (ensure_data_file_spec h fn d w0 Hfn) as (_ & _ & H3 & _ & H5).
    destruct (decide (path = fn)) as [->|Hq].
    - rewrite H5; [done|]. by rewrite Hf.
    - rewrite H3; done. }
  unfold Disk.ensure_data_files.
  destruct (ensure_data_file_spec h (Disk.RESOURCES_FILE h) default_record w Hr)
    as (H1 & H2 & _).
  pose proof (Hkeep (Disk.RESOURCES_FILE h) default_record w) as Hk1.
  destruct (Disk.ensure_data_file h (Disk.RESOURCES_FILE h) default_record w)
    as [[[]|e] w1]; cbn [fst snd] in *.
  - destruct (ensure_data_file_spec h (Disk.VILLAGERS_FILE h) default_record w1 Hv)
      as (G1 & G2 & _).
    split; [done|]. split.
    + intros Hok. split; [|rewrite G2 by done; eauto].
      eapply mk_is_Some, Hkeep; [done..|]. by apply H2.
    + intros path text Hp Hf. apply Hkeep; [done..|]. by apply Hk1.
  - split; [destruct H1 as [[=]|H1]; by right|]. split; [done|].
    intros path text Hp Hf. by apply Hk1.
Qed.

Lemma ensure_data_files_keeps_what_exists_witness :
  is_Some (Disk.files (Disk.ensure_data_files Disk.plain_host Disk.empty_world).2
             !! Disk.RESOURCES_FILE Disk.plain_host)
  ∧ is_Some (Disk.files (Disk.ensure_data_files Disk.plain_host Disk.empty_world).2
               !! Disk.VILLAGERS_FILE Disk.plain_host).
Proof.
  apply (proj1 (proj2 (ensure_data_files_keeps_what_exists
                         Disk.plain_host Disk.empty_world))).
  reflexivity.
Defined.

(** X20.  First start.  In a directory without record files, where both
    can be written and read and the JSON library reads back the defaults it
    has written, the start of [main] creates both files with the defaults
    and begins the game with the default records. *)
Theorem first_start_defaults (h : Disk.host) (w : Disk.world) :
  Disk.files w !! Disk.RESOURCES_FILE h = None →
  Disk.files w !! Disk.VILLAGERS_FILE h = None →
  Disk.write_error h (Disk.RESOURCES_FILE h) = None →
  Disk.write_error h (Disk.VILLAGERS_FILE h) = None →
  Disk.read_error h (Disk.RESOURCES_FILE h) = None →
  Disk.read_error h (Disk.VILLAGERS_FILE h) = None →
  Disk.json_load h (Disk.json_dump h default_record) = inr default_record →
  (Disk.main_start h w).1 = Ok (default_record, default_record)
  ∧ Disk.files (Disk.main_start h w).2 !! Disk.RESOURCES_FILE h
    = Some (Disk.json_dump h default_record)
  ∧ Disk.files (Disk.main_start h w).2 !! Disk.VILLAGERS_FILE h
    = Some (Disk.json_dump h default_record).
Proof.
  intros Hfr Hfv Hwr Hwv Hrr Hrv Hj.
  destruct (paths_distinct h) as (Hr & Hv & Hrv' & _).
  set (w1 := Disk.log_message h ("Created " ++ Disk.RESOURCES_FILE h)
               (Disk.with_files (<[Disk.RESOURCES_FILE h
                                   := Disk.json_dump h default_record]> (Disk.files w)) w)).
  set (w2 := Disk.log_message h ("Created " ++ Disk.VILLAGERS_FILE h)
               (Disk.with_files (<[Disk.VILLAGERS_FILE h
                                   := Disk.json_dump h default_record]> (Disk.files w1)) w1)).
  assert (H1r : Disk.files w1 !! Disk.RESOURCES_FILE h
                = Some (Disk.json_dump h default_record)).
  { unfold w1. rewrite log_message_files by done. cbn. by rewrite lookup_insert_eq. }
  assert (H1v : Disk.files w1 !! Disk.VILLAGERS_FILE h = None).
  { unfold w1. rewrite log_message_files by done. cbn.
    by rewrite lookup_insert_ne. }
  assert (H2r : Disk.files w2 !! Disk.RESOURCES_FILE h
                = Some (Disk.json_dump h default_record)).
  { unfold w2. rewrite log_message_files by done. cbn.
    by rewrite lookup_insert_ne. }
  assert (H2v : Disk.files w2 !! Disk.VILLAGERS_FILE h
                = Some (Disk.json_dump h default_record)).
  { unfold w2. rewrite log_message_files by done. cbn. by rewrite lookup_insert_eq. }
  assert (E1 : Disk.ensure_data_file h (Disk.RESOURCES_FILE h) default_record w
               = (Ok tt, w1)).
  { unfold Disk.ensure_data_file. by rewrite Hfr, Hwr. }
  assert (E2 : Disk.ensure_data_file h (Disk.VILLAGERS_FILE h) default_record w1
               = (Ok tt, w2)).
  { unfold Disk.ensure_data_file. by rewrite H1v, Hwv. }
  unfold Disk.main_start, Disk.ensure_data_files. rewrite E1, E2.
  rewrite (load_resources_readable h w2 _ default_record) by done.
  rewrite (load_villagers_readable h w2 _ default_record) by done.
  cbn [fst snd]. rewrite !log_message_files by done. done.
Qed.

Lemma first_start_defaults_witness :
  (Disk.main_start Disk.plain_host Disk.empty_world).1
  = Ok (default_record, default_record)
  ∧ Disk.files (Disk.main_start Disk.plain_host Disk.empty_world).2
      !! Disk.RESOURCES_FILE Disk.plain_host
    = Some (Disk.json_dump Disk.plain_host default_record)
  ∧ Disk.files (Disk.main_start Disk.plain_host Disk.empty_world).2
      !! Disk.VILLAGERS_FILE Disk.plain_host
    = Some (Disk.json_dump Disk.plain_host default_record).
Proof.
  apply (first_start_defaults Disk.plain_host Disk.empty_world); reflexivity.
Defined.

(** X21.  Progress survives a restart.  After both records have been
    saved, the start of [main] leaves the two files as they are and begins
    the game with the saved records. *)
Theorem restart_loads_saved_records (h : Disk.host) (r v : json) (w : Disk.world) :
  Disk.write_error h (Disk.RESOURCES_FILE h) = None →
  Disk.write_error h (Disk.VILLAGERS_FILE h) = None →
  Disk.read_error h (Disk.RESOURCES_FILE h) = None →
  Disk.read_error h (Disk.VILLAGERS_FILE h) = None →
  Disk.json_load h (Disk.json_dump h r) = inr r →
  Disk.json_load h (Disk.json_dump h v) = inr v →
  (Disk.main_start h (Disk.save_villagers h v (Disk.save_resources h r w))).1
  = Ok (r, v)
  ∧ Disk.files (Disk.main_start h (Disk.save_villagers h v (Disk.save_resources h r w))).2
      !! Disk.RESOURCES_FILE h = Some (Disk.json_dump h r)
  ∧ Disk.files (Disk.main_start h (Disk.save_villagers h v (Disk.save_resources h r w))).2
      !! Disk.VILLAGERS_FILE h = Some (Disk.json_dump h v).
Proof.
  intros Hwr Hwv Hrr Hrv Hjr Hjv.
  destruct (paths_distinct h) as (Hr & Hv & Hrv' & _).
  set (w0 := Disk.save_villagers h v (Disk.save_resources h r w)).
  assert (H0r : Disk.files w0 !! Disk.RESOURCES_FILE h = Some (Disk.json_dump h r)).
  { unfold w0, Disk.save_villagers, Disk.save_resources. rewrite Hwr, Hwv. cbn.
    rewrite lookup_insert_ne by done. by rewrite lookup_insert_eq. }
  assert (H0v : Disk.files w0 !! Disk.VILLAGERS_FILE h = Some (Disk.json_dump h v)).
  { unfold w0, Disk.save_villagers. rewrite Hwv. cbn. by rewrite lookup_insert_eq. }
  unfold Disk.main_start, Disk.ensure_data_files, Disk.ensure_data_file.
  rewrite H0r, H0v.
  rewrite (load_resources_readable h w0 _ r) by done.
  rewrite (load_villagers_readable h w0 _ v) by done.
  cbn [fst snd]. rewrite !log_message_files by done. done.
Qed.

Lemma restart_loads_saved_records_witness :
  (Disk.main_start Disk.plain_host
     (Disk.save_villagers Disk.plain_host default_record
        (Disk.save_resources Disk.plain_host default_record Disk.played_world))).1
  = Ok (default_record, default_record)
  ∧ Disk.files (Disk.main_start Disk.plain_host
       (Disk.save_villagers Disk.plain_host default_record
          (Disk.save_resources Disk.plain_host default_record Disk.played_world))).2
      !! Disk.RESOURCES_FILE Disk.plain_host
    = Some (Disk.json_dump Disk.plain_host default_record)
  ∧ Disk.files (Disk.main_start Disk.plain_host
       (Disk.save_villagers Disk.plain_host default_record
          (Disk.save_resources Disk.plain_host default_record Disk.played_world))).2
      !! Disk.VILLAGERS_FILE Disk.plain_host
    = Some (Disk.json_dump Disk.plain_host default_record).
Proof.
  apply (restart_loads_saved_records Disk.plain_host default_record default_record
           Disk.played_world); reflexivity.
Defined.

(** ** The log and its rotation *)

(** The log a rotation starts. *)
Lemma rotated_log (h : Disk.host) (w : Disk.world) (text : string) :
  Disk.files w !! Disk.LOG_FILE h = Some text →
  Disk.MAX_LOG_SIZE < Z.of_nat (String.length text) →
  Disk.files (Disk.rotate_log_file h w) !! Disk.LOG_FILE h
  = match Disk.write_error h (Disk.LOG_FILE h) with
    | None => Some (Disk.now w ++ " - "
                      ++ ("Rotated log file.  New log file: " ++ Disk.LOG_FILE h)
                      ++ Disk.newline)
    | Some _ => None
    end.
Proof.
  intros Hlog Hgt. destruct (paths_distinct h) as (_ & _ & _ & Hb).
  unfold Disk.rotate_log_file. rewrite Hlog.
  rewrite (proj2 (Z.gtb_lt _ _)) by done.
  set (backup := Disk.LOG_FILE h ++ Disk.BACKUP_LOG_SUFFIX) in *.
  set (w1 := match Disk.files w !! backup with
             | Some _ => Disk.with_files (delete backup (Disk.files w)) w
             | None => w
             end).
  assert (Hnow : Disk.now w1 = Disk.now w).
  { unfold w1. by destruct (Disk.files w !! backup). }
  set (w2 := Disk.with_files (<[backup := text]> (delete (Disk.LOG_FILE h) (Disk.files w1))) w1).
  assert (H2l : Disk.files w2 !! Disk.LOG_FILE h = None).
  { unfold w2. cbn. rewrite lookup_insert_ne by done. by rewrite lookup_delete_eq. }
  unfold Disk.log_message.
  destruct (Disk.write_error h (Disk.LOG_FILE h)); cbn [Disk.files Disk.print];
    [done|].
  cbn [Disk.with_files Disk.files Disk.print]. rewrite lookup_insert_eq.
  cbn [Disk.now Disk.console]. rewrite H2l.
  change (Disk.now w2) with (Disk.now w1). by rewrite Hnow.
Qed.

(** X22.  Rotation loses no line of the current log.  Given a log,
    [rotate_log_file] either finds it within [MAX_LOG_SIZE] and changes
    nothing, or moves its whole text to the backup and starts a log that
    holds the rotation notice only; no other file is touched. *)
Theorem rotation_keeps_log_text (h : Disk.host) (w : Disk.world) (text : string) :
  Disk.files w !! Disk.LOG_FILE h = Some text →
  (Z.of_nat (String.length text) ≤ Disk.MAX_LOG_SIZE
   ∧ Disk.rotate_log_file h w = w)
  ∨ (Disk.MAX_LOG_SIZE < Z.of_nat (String.length text)
     ∧ Disk.files (Disk.rotate_log_file h w)
         !! (Disk.LOG_FILE h ++ Disk.BACKUP_LOG_SUFFIX) = Some text
     ∧ Disk.files (Disk.rotate_log_file h w) !! Disk.LOG_FILE h
       = match Disk.write_error h (Disk.LOG_FILE h) with
         | None => Some (Disk.now w ++ " - "
                           ++ ("Rotated log file.  New log file: " ++ Disk.LOG_FILE h)
                           ++ Disk.newline)
         | Some _ => None
         end
     ∧ ∀ path, path ≠ Disk.LOG_FILE h →
               path ≠ Disk.LOG_FILE h ++ Disk.BACKUP_LOG_SUFFIX →
               Disk.files (Disk.rotate_log_file h w) !! path = Disk.files w !! path).
Proof.
  intros Hlog. destruct (paths_distinct h) as (_ & _ & _ & Hb).
  destruct (Z.gtb_spec (Z.of_nat (String.length text)) Disk.MAX_LOG_SIZE) as [Hgt|Hle].
  2:{ left. split; [lia|]. unfold Disk.rotate_log_file. rewrite Hlog.
      by rewrite Z.gtb_ltb, (proj2 (Z.ltb_ge _ _)) by lia. }
  right. split; [lia|].
  split; [|split; [apply (rotated_log h w text); [done|lia]|]];
    unfold Disk.rotate_log_file; rewrite Hlog, (proj2 (Z.gtb_lt _ _)) by lia.
  - rewrite log_message_files by done. cbn. by rewrite lookup_insert_eq.
  - intros path Hp Hq. rewrite log_message_files by done. cbn.
    rewrite lookup_insert_ne, lookup_delete_ne by done.
    destruct (Disk.files w !! (Disk.LOG_FILE h ++ Disk.BACKUP_LOG_SUFFIX)); [|done].
    cbn. by rewrite lookup_delete_ne.
Qed.

Lemma rotation_keeps_log_text_witness :
  (Z.of_nat (String.length ("2024-01-01 00:00:00 - Exiting game." ++ Disk.newline))
   ≤ Disk.MAX_LOG_SIZE
   ∧ Disk.rotate_log_file Disk.plain_host Disk.played_world = Disk.played_world)
  ∨ (Disk.MAX_LOG_SIZE
     < Z.of_nat (String.length ("2024-01-01 00:00:00 - Exiting game." ++ Disk.newline))
     ∧ Disk.files (Disk.rotate_log_file Disk.plain_host Disk.played_world)
         !! (Disk.LOG_FILE Disk.plain_host ++ Disk.BACKUP_LOG_SUFFIX)
       = Some ("2024-01-01 00:00:00 - Exiting game." ++ Disk.newline)
     ∧ Disk.files (Disk.rotate_log_file Disk.plain_host Disk.played_world)
         !! Disk.LOG_FILE Disk.plain_host
       = match Disk.write_error Disk.plain_host (Disk.LOG_FILE Disk.plain_host) with
         | None => Some (Disk.now Disk.played_world ++ " - "
                           ++ ("Rotated log file.  New log file: "
                                 ++ Disk.LOG_FILE Disk.plain_host)
                           ++ Disk.newline)
         | Some _ => None
         end
     ∧ ∀ path, path ≠ Disk.LOG_FILE Disk.plain_host →
               path ≠ Disk.LOG_FILE Disk.plain_host ++ Disk.BACKUP_LOG_SUFFIX →
               Disk.files (Disk.rotate_log_file Disk.plain_host Disk.played_world) !! path
               = Disk.files Disk.played_world !! path).
Proof.
  apply (rotation_keeps_log_text Disk.plain_host Disk.played_world
           ("2024-01-01 00:00:00 - Exiting game." ++ Disk.newline)).
  reflexivity.
Defined.

(** X23.  After [rotate_log_file] the log is within [MAX_LOG_SIZE],
    provided the rotation notice itself is: the timestamp, the path of the
    log and 37 more characters. *)
Theorem log_bounded_after_rotation (h : Disk.host) (w : Disk.world) :
  Z.of_nat (String.length (Disk.now w) + String.length (Disk.LOG_FILE h)) + 37
  ≤ Disk.MAX_LOG_SIZE →
  Disk.log_size h (Disk.rotate_log_file h w) ≤ Disk.MAX_LOG_SIZE.
Proof.
  intros Hnotice. unfold Disk.log_size.
  destruct (Disk.files w !! Disk.LOG_FILE h) as [text|] eqn:Hlog.
  - destruct (Z.gtb_spec (Z.of_nat (String.length text)) Disk.MAX_LOG_SIZE)
      as [Hgt|Hle].
    + rewrite (rotated_log h w text) by (done || lia).
      destruct (Disk.write_error h (Disk.LOG_FILE h)); [done|].
      rewrite !string_length_app. cbn [String.length Disk.newline]. lia.
    + unfold Disk.rotate_log_file. rewrite Hlog.
      rewrite Z.gtb_ltb, (proj2 (Z.ltb_ge _ _)) by lia.
      by rewrite Hlog.
  - unfold Disk.rotate_log_file. rewrite Hlog, Hlog. done.
Qed.

Lemma log_bounded_after_rotation_witness :
  Disk.log_size Disk.plain_host (Disk.rotate_log_file Disk.plain_host Disk.played_world)
  ≤ Disk.MAX_LOG_SIZE.
Proof.
  apply (log_bounded_after_rotation Disk.plain_host Disk.played_world).
  vm_compute. discriminate.
Defined.

(** ** The check for a running instance *)

(** X24.  [os.kill] returns [None] when it returns, so the test
    [os.kill(pid, 0) == True] never holds: the branch that reports a running
    game is never taken, and a PID file naming a live process does not
    prevent a second start. *)
Theorem running_instance_never_detected
    (pid_file : option string) (os_kill : Z → kill_result) :
  (∀ pid v, os_kill pid = Returned v → v = PyNone) →
  (∀ pid, launch pid_file os_kill ≠ AlreadyRunning pid)
  ∧ (∀ text pid, pid_file = Some text →
       PyStr.py_int (PyStr.strip text) = Some pid →
       os_kill pid = Returned PyNone →
       launch pid_file os_kill = RunsMain).
Proof.
  intros Hkill. split.
  - intros pid. unfold launch. destruct pid_file as [text|]; [|done].
    destruct (PyStr.py_int (PyStr.strip text)) as [p|]; [|done].
    destruct (os_kill p) as [v| |e] eqn:E; try done.
    by rewrite (Hkill p v E).
  - intros text pid -> Hpid Hlive. unfold launch. by rewrite Hpid, Hlive.
Qed.

Lemma running_instance_never_detected_witness :
  launch (Some "4242") (λ _, Returned PyNone) = RunsMain.
Proof.
  apply (proj2 (running_instance_never_detected (Some "4242") (λ _, Returned PyNone)
                  ltac:(intros pid v [= <-]; reflexivity)) "4242" 4242).
  - reflexivity.
  - vm_compute. reflexivity.
  - reflexivity.
Defined.
